(** * The streaming progress consumer of the journey-analysis dashboard

    A shallow embedding of [fetchJourneyAnalysis] (the React component
    [App]): the read loop over the response body, the streaming text
    decoder, the line buffer, the [data: ] filter, [JSON.parse], and the
    dispatch on the event's [type] onto the component's state setters.

    JavaScript strings are sequences of UTF-16 code units; the bytes of a
    chunk ([Uint8Array]) are [Byte.byte].  The two platform functions the
    loop calls are modelled in full: [TextDecoder] after the Encoding
    Standard, [JSON.parse] after the JSON grammar of ECMAScript.  The
    function writes the component's state and never reads it, so a call is
    described by the list of its effects; the statements about sessions are
    made on those lists and on the final state. *)

From Stdlib Require Import List ZArith Lia Bool Ascii String DecimalString.
From Stdlib Require Import Strings.Byte.
From Stdlib Require Import Permutation.
Import ListNotations.
Local Open Scope Z_scope.
Set Warnings "-register-all".

(* ===================================================================== *)
(** ** JavaScript strings *)
(* ===================================================================== *)

Module JS.

(** A JavaScript string: its UTF-16 code units. *)
Definition jsstring := list Z.

(** An ASCII literal of the source, as a JavaScript string. *)
Definition js (s : string) : jsstring :=
  List.map (fun a => Z.of_N (N_of_ascii a)) (list_ascii_of_string s).

Definition LF : Z := 10.

Fixpoint jsstring_eqb (a b : jsstring) : bool :=
  match a, b with
  | [], [] => true
  | x :: a', y :: b' => (x =? y) && jsstring_eqb a' b'
  | _, _ => false
  end.

(** [String.prototype.startsWith(searchString)]. *)
Fixpoint startsWith (s searchString : jsstring) {struct searchString} : bool :=
  match searchString, s with
  | [], _ => true
  | p :: ps, c :: cs => (c =? p) && startsWith cs ps
  | _ :: _, [] => false
  end.

(** [String.prototype.substring(start)] with one argument. *)
Definition substring (start : nat) (s : jsstring) : jsstring := skipn start s.

(** [String.prototype.split('\n')]: the pieces between line feeds; the
    empty string splits into one empty piece. *)
Fixpoint split (s : jsstring) : list jsstring :=
  match s with
  | [] => [[]]
  | c :: r =>
      if c =? LF then [] :: split r
      else match split r with
           | l :: ls => (c :: l) :: ls
           | [] => [[c]]
           end
  end.

(** [Array.prototype.pop]: removes the last element and returns it
    ([None] is [undefined], on an empty array). *)
Definition pop {A} (l : list A) : option A * list A :=
  match l with
  | [] => (None, [])
  | x :: r => (Some (last r x), removelast l)
  end.

(** [v || ''] for [v] a string or [undefined]: both [undefined] and the
    empty string are falsy. *)
Definition or_empty (v : option jsstring) : jsstring :=
  match v with
  | Some (c :: r) => c :: r
  | _ => []
  end.

End JS.
Import JS.

(* ===================================================================== *)
(** ** [new TextDecoder()] and [decoder.decode(value, { stream: true })] *)
(* ===================================================================== *)

(** The platform's decoder, as the Encoding Standard defines it for the
    default label ([utf-8]), the default error mode (replacement) and the
    default [ignoreBOM] (false).  With [stream: true] on every call the
    decoder is never reset and never flushed: the state below persists
    from one chunk to the next. *)
Module TextDecoder.

Record t := mk {
  code_point : Z;
  bytes_seen : Z;
  bytes_needed : Z;
  lower_boundary : Z;
  upper_boundary : Z;
  BOM_seen : bool
}.

(** [new TextDecoder()]. *)
Definition new : t := mk 0 0 0 0x80 0xBF false.

Definition reset (d : t) : t := mk 0 0 0 0x80 0xBF (BOM_seen d).

Definition between (lo b hi : Z) : bool := (lo <=? b) && (b <=? hi).

(** The handler when no continuation byte is awaited. *)
Definition lead (d : t) (b : Z) : t * list Z :=
  if between 0x00 b 0x7F then (d, [b])
  else if between 0xC2 b 0xDF then
    (mk (Z.land b 0x1F) (bytes_seen d) 1
        (lower_boundary d) (upper_boundary d) (BOM_seen d), [])
  else if between 0xE0 b 0xEF then
    (mk (Z.land b 0xF) (bytes_seen d) 2
        (if b =? 0xE0 then 0xA0 else lower_boundary d)
        (if b =? 0xED then 0x9F else upper_boundary d) (BOM_seen d), [])
  else if between 0xF0 b 0xF4 then
    (mk (Z.land b 0x7) (bytes_seen d) 3
        (if b =? 0xF0 then 0x90 else lower_boundary d)
        (if b =? 0xF4 then 0x8F else upper_boundary d) (BOM_seen d), [])
  else (d, [0xFFFD]).

(** The UTF-8 decoder's handler on one byte: the scalar values it
    returns.  An error is the replacement character U+FFFD; a byte outside
    the awaited range is an error and is then handled again from the
    initial state. *)
Definition handler (d : t) (b : Z) : t * list Z :=
  if bytes_needed d =? 0 then lead d b
  else if negb (between (lower_boundary d) b (upper_boundary d)) then
    let (d', out) := lead (reset d) b in (d', 0xFFFD :: out)
  else
    let cp := Z.lor (Z.shiftl (code_point d) 6) (Z.land b 0x3F) in
    let seen := bytes_seen d + 1 in
    if seen =? bytes_needed d then (reset d, [cp])
    else (mk cp seen (bytes_needed d) 0x80 0xBF (BOM_seen d), []).

(** A scalar value as UTF-16 code units. *)
Definition code_units (cp : Z) : jsstring :=
  if cp <? 0x10000 then [cp]
  else [0xD800 + Z.shiftr (cp - 0x10000) 10;
        0xDC00 + Z.land (cp - 0x10000) 0x3FF].

(** Serializing the output: the first scalar value of the whole stream is
    dropped when it is the byte order mark. *)
Fixpoint serialize (bom : bool) (items : list Z) : bool * jsstring :=
  match items with
  | [] => (bom, [])
  | item :: rest =>
      if negb bom && (item =? 0xFEFF) then serialize true rest
      else let (bom', s) := serialize true rest in (bom', code_units item ++ s)
  end.

Definition decode_byte (d : t) (b : byte) : t * jsstring :=
  let (d1, items) := handler d (Z.of_N (Byte.to_N b)) in
  let (bom, s) := serialize (BOM_seen d1) items in
  (mk (code_point d1) (bytes_seen d1) (bytes_needed d1)
      (lower_boundary d1) (upper_boundary d1) bom, s).

(** [decoder.decode(value, { stream: true })]: the new decoder state and
    the text returned. *)
Fixpoint decode (d : t) (value : list byte) : t * jsstring :=
  match value with
  | [] => (d, [])
  | b :: rest =>
      let (d1, s1) := decode_byte d b in
      let (d2, s2) := decode d1 rest in
      (d2, s1 ++ s2)
  end.

End TextDecoder.

(* ===================================================================== *)
(** ** [JSON.parse] and property reads on its result *)
(* ===================================================================== *)

Module JSON.

(** A JSON number is kept as the decimal it was written as:
    [(-1)^negative * mantissa * 10^exponent]. *)
Record number := mkNumber {
  negative : bool;
  mantissa : Z;
  exponent : Z
}.

Inductive json :=
| JNull
| JBool (b : bool)
| JNumber (n : number)
| JString (s : jsstring)
| JArray (elements : list json)
| JObject (members : list (jsstring * json)).

(** A JavaScript value read out of a parsed document: [None] is
    [undefined]. *)
Definition jsval := option json.

(** What the code throws inside the loop body. *)
Inductive exn :=
| SyntaxError                 (* [JSON.parse] on a malformed text *)
| TypeError                   (* a property read on [null] *)
| Error (message : jsval).    (* [new Error(data.message)] *)

(** *** The lexical grammar *)

Definition is_ws (c : Z) : bool :=
  (c =? 9) || (c =? 10) || (c =? 13) || (c =? 32).

Fixpoint skip_ws (s : jsstring) : jsstring :=
  match s with
  | c :: r => if is_ws c then skip_ws r else s
  | [] => []
  end.

Definition is_digit (c : Z) : bool := (48 <=? c) && (c <=? 57).

Definition hex_value (c : Z) : option Z :=
  if is_digit c then Some (c - 48)
  else if (97 <=? c) && (c <=? 102) then Some (c - 87)
  else if (65 <=? c) && (c <=? 70) then Some (c - 55)
  else None.

Definition hex4 (a b c d : Z) : option Z :=
  match hex_value a, hex_value b, hex_value c, hex_value d with
  | Some x, Some y, Some z, Some w => Some (((x * 16 + y) * 16 + z) * 16 + w)
  | _, _, _, _ => None
  end.

(** The character a single-character escape stands for. *)
Definition escape (e : Z) : option Z :=
  if e =? 34 then Some 34            (* quote *)
  else if e =? 92 then Some 92       (* backslash *)
  else if e =? 47 then Some 47       (* slash *)
  else if e =? 98 then Some 8        (* \b *)
  else if e =? 102 then Some 12      (* \f *)
  else if e =? 110 then Some 10      (* \n *)
  else if e =? 114 then Some 13      (* \r *)
  else if e =? 116 then Some 9       (* \t *)
  else None.

Definition cons_fst {A} (c : Z) (r : option (jsstring * A)) : option (jsstring * A) :=
  match r with
  | Some (s, rest) => Some (c :: s, rest)
  | None => None
  end.

(** The characters of a string after its opening quote, up to the closing
    quote: the string's value and the text after it. *)
Fixpoint parse_string (s : jsstring) : option (jsstring * jsstring) :=
  match s with
  | [] => None
  | c :: r =>
      if c =? 34 then Some ([], r)
      else if c =? 92 then
        match r with
        | [] => None
        | e :: r1 =>
            if e =? 117 then
              match r1 with
              | h1 :: h2 :: h3 :: h4 :: r2 =>
                  match hex4 h1 h2 h3 h4 with
                  | Some u => cons_fst u (parse_string r2)
                  | None => None
                  end
              | _ => None
              end
            else
              match escape e with
              | Some x => cons_fst x (parse_string r1)
              | None => None
              end
        end
      else if c <? 32 then None
      else cons_fst c (parse_string r)
  end.

(** The leading decimal digits of a text, and the text after them. *)
Fixpoint digits (s : jsstring) : list Z * jsstring :=
  match s with
  | c :: r =>
      if is_digit c then let (ds, rest) := digits r in (c - 48 :: ds, rest)
      else ([], s)
  | [] => ([], [])
  end.

Definition digits_value (ds : list Z) : Z :=
  fold_left (fun a d => 10 * a + d) ds 0.

Definition parse_int (s : jsstring) : option (list Z * jsstring) :=
  match s with
  | c :: r =>
      if c =? 48 then Some ([0], r)
      else if is_digit c then let (ds, rest) := digits r in Some (c - 48 :: ds, rest)
      else None
  | [] => None
  end.

(** [s] after its first character, when that character is [c]. *)
Definition peek (c : Z) (s : jsstring) : option jsstring :=
  match s with
  | x :: r => if x =? c then Some r else None
  | [] => None
  end.

Definition parse_fraction (s : jsstring) : option (list Z * jsstring) :=
  match peek 46 s with                                  (* . *)
  | Some r =>
      match digits r with
      | ([], _) => None
      | (ds, rest) => Some (ds, rest)
      end
  | None => Some ([], s)
  end.

Definition parse_sign (s : jsstring) : bool * jsstring :=
  match peek 45 s with                                  (* - *)
  | Some r => (true, r)
  | None =>
      match peek 43 s with                              (* + *)
      | Some r => (false, r)
      | None => (false, s)
      end
  end.

Definition parse_exponent (s : jsstring) : option (Z * jsstring) :=
  match s with
  | c :: r =>
      if (c =? 101) || (c =? 69) then                   (* e E *)
        let (neg, r1) := parse_sign r in
        match digits r1 with
        | ([], _) => None
        | (ds, rest) =>
            Some (if neg then - digits_value ds else digits_value ds, rest)
        end
      else Some (0, s)
  | [] => Some (0, [])
  end.

Definition parse_number (s : jsstring) : option (number * jsstring) :=
  let (neg, s1) := match peek 45 s with
                   | Some r => (true, r)
                   | None => (false, s)
                   end in
  match parse_int s1 with
  | None => None
  | Some (ints, s2) =>
      match parse_fraction s2 with
      | None => None
      | Some (fracs, s3) =>
          match parse_exponent s3 with
          | None => None
          | Some (e, s4) =>
              Some (mkNumber neg (digits_value (ints ++ fracs))
                             (e - Z.of_nat (List.length fracs)), s4)
          end
      end
  end.

(** *** The syntactic grammar *)

Inductive presult :=
| POk (v : json) (rest : jsstring)
| PSyntaxError
| POutOfFuel.

Definition literal (word : string) (v : json) (s : jsstring) : presult :=
  if startsWith s (js word) then POk v (skipn (String.length word) s)
  else PSyntaxError.

(** A value that is not an array or an object, from its first
    character on. *)
Definition parse_scalar (s : jsstring) : presult :=
  match s with
  | [] => PSyntaxError
  | c :: r =>
      if c =? 34 then                                   (* quote *)
        match parse_string r with
        | Some (str, r') => POk (JString str) r'
        | None => PSyntaxError
        end
      else if (c =? 45) || is_digit c then
        match parse_number s with
        | Some (n, r') => POk (JNumber n) r'
        | None => PSyntaxError
        end
      else if c =? 116 then literal "true" (JBool true) s
      else if c =? 102 then literal "false" (JBool false) s
      else if c =? 110 then literal "null" JNull s
      else PSyntaxError
  end.

(** Recursive descent.  [parse_value] reads one value (after white space),
    [parse_elements] the elements of an array from the start of an element
    to the closing bracket, [parse_members] the members of an object from
    the start of a member to the closing brace.  Every call spends one unit
    of [fuel]; [JSON_fuel] below is always enough. *)
Fixpoint parse_value (fuel : nat) (s : jsstring) : presult :=
  match fuel with
  | O => POutOfFuel
  | S f =>
      match peek 123 (skip_ws s) with                   (* { *)
      | Some r =>
          match peek 125 (skip_ws r) with               (* } *)
          | Some r' => POk (JObject []) r'
          | None => parse_members f r []
          end
      | None =>
          match peek 91 (skip_ws s) with                (* [ *)
          | Some r =>
              match peek 93 (skip_ws r) with            (* ] *)
              | Some r' => POk (JArray []) r'
              | None => parse_elements f r []
              end
          | None => parse_scalar (skip_ws s)
          end
      end
  end
with parse_elements (fuel : nat) (s : jsstring) (acc : list json) : presult :=
  match fuel with
  | O => POutOfFuel
  | S f =>
      match parse_value f s with
      | POk v r =>
          match peek 44 (skip_ws r) with                (* , *)
          | Some r' => parse_elements f r' (v :: acc)
          | None =>
              match peek 93 (skip_ws r) with            (* ] *)
              | Some r' => POk (JArray (rev (v :: acc))) r'
              | None => PSyntaxError
              end
          end
      | e => e
      end
  end
with parse_members (fuel : nat) (s : jsstring) (acc : list (jsstring * json))
  : presult :=
  match fuel with
  | O => POutOfFuel
  | S f =>
      match peek 34 (skip_ws s) with                    (* quote *)
      | Some r =>
          match parse_string r with
          | Some (k, r1) =>
              match peek 58 (skip_ws r1) with           (* : *)
              | Some r2 =>
                  match parse_value f r2 with
                  | POk v r3 =>
                      match peek 44 (skip_ws r3) with   (* , *)
                      | Some r4 => parse_members f r4 ((k, v) :: acc)
                      | None =>
                          match peek 125 (skip_ws r3) with   (* } *)
                          | Some r4 => POk (JObject (rev ((k, v) :: acc))) r4
                          | None => PSyntaxError
                          end
                      end
                  | e => e
                  end
              | None => PSyntaxError
              end
          | None => PSyntaxError
          end
      | None => PSyntaxError
      end
  end.

Definition JSON_fuel (text : jsstring) : nat := 2 * List.length text + 1.

(** [JSON.parse(text)]: the value, or the [SyntaxError] it throws. *)
Definition JSON_parse (text : jsstring) : exn + json :=
  match parse_value (JSON_fuel text) text with
  | POk v rest =>
      match skip_ws rest with
      | [] => inr v
      | _ => inl SyntaxError
      end
  | _ => inl SyntaxError
  end.

(** *** Reading the parsed value *)

(** The own property [key] of an object literal: of duplicate keys the
    last one written wins. *)
Fixpoint lookup (key : jsstring) (members : list (jsstring * json)) : jsval :=
  match members with
  | [] => None
  | (k, v) :: rest =>
      match lookup key rest with
      | Some v' => Some v'
      | None => if jsstring_eqb k key then Some v else None
      end
  end.

(** [data.key], for a [key] that no built-in prototype defines (such are
    [type], [step], [total], [current], [percentage], [message] and
    [data]): an own property of an object, [undefined] on any other value
    but [null], where the read throws. *)
Definition Get (data : json) (key : string) : exn + jsval :=
  match data with
  | JNull => inl TypeError
  | JObject members => inr (lookup (js key) members)
  | _ => inr None
  end.

(** [v === 'literal']. *)
Definition strict_eq (v : jsval) (literal : string) : bool :=
  match v with
  | Some (JString s) => jsstring_eqb s (js literal)
  | _ => false
  end.

(** A decimal that rounds to zero as a double: zero itself, or a
    magnitude of at most [2^-1075]. *)
Definition rounds_to_zero (n : number) : bool :=
  (mantissa n =? 0) ||
  ((exponent n <? 0) && (mantissa n * 2 ^ 1075 <=? 10 ^ (- exponent n))).

(** [ToBoolean]. *)
Definition truthy (v : jsval) : bool :=
  match v with
  | None => false
  | Some JNull => false
  | Some (JBool b) => b
  | Some (JNumber n) => negb (rounds_to_zero n)
  | Some (JString s) => match s with [] => false | _ => true end
  | Some (JArray _) => true
  | Some (JObject _) => true
  end.

End JSON.

(* ===================================================================== *)
(** ** The component: state, setters and [fetchJourneyAnalysis] *)
(* ===================================================================== *)

Module App.
Import JSON.

(** The object handed to [setRealTimeProgress]. *)
Record Progress := mkProgress {
  current : jsval;
  total : jsval;
  percentage : jsval;
  message : jsval
}.

(** What the function does to the outside: the calls of the state
    setters, [console.warn] and [setTimeout], in program order.  [Parsed]
    is a ghost mark left where [const data = JSON.parse(...)] binds
    [data]; it changes no state. *)
Inductive effect :=
| SetLoading (b : bool)
| SetError (e : option jsstring)
| SetAiAnalysis (v : jsval)
| SetLoadingProgress (v : jsval)
| SetRealTimeProgress (p : option Progress)
| SetHistogramData (v : jsval)
| SetTimeoutScroll
| ConsoleWarn (parseError : exn)
| Parsed (data : json).

(** The [useState] cells the function writes ([None] in [error] and
    [realTimeProgress] is [null]), and the history of effects. *)
Record State := mkState {
  histogramData : jsval;
  loading : bool;
  error : option jsstring;
  aiAnalysis : jsval;
  loadingProgress : jsval;
  realTimeProgress : option Progress;
  trace : list effect
}.

Definition perform (e : effect) (st : State) : State :=
  {| histogramData := match e with SetHistogramData v => v | _ => histogramData st end;
     loading := match e with SetLoading b => b | _ => loading st end;
     error := match e with SetError m => m | _ => error st end;
     aiAnalysis := match e with SetAiAnalysis v => v | _ => aiAnalysis st end;
     loadingProgress :=
       match e with SetLoadingProgress v => v | _ => loadingProgress st end;
     realTimeProgress :=
       match e with SetRealTimeProgress p => p | _ => realTimeProgress st end;
     trace := trace st ++ [e] |}.

Definition null : jsval := Some JNull.
Definition str (s : string) : jsval := Some (JString (js s)).

(** *** The body of the inner [try]: state and exceptions *)

Definition M (A : Type) : Type := State -> (exn + A) * State.

Definition ret {A} (a : A) : M A := fun st => (inr a, st).

Definition bind {A B} (m : M A) (k : A -> M B) : M B :=
  fun st =>
    match m st with
    | (inl e, st') => (inl e, st')
    | (inr a, st') => k a st'
    end.

Definition throw {A} (e : exn) : M A := fun st => (inl e, st).

Definition lift {A} (r : exn + A) : M A := fun st => (r, st).

Definition call (e : effect) : M unit := fun st => (inr tt, perform e st).

(** [try { body } catch (parseError) { handler }], for a handler that does
    not throw. *)
Definition try_catch (body : M unit) (handler : exn -> State -> State)
  (st : State) : State :=
  match body st with
  | (inl parseError, st') => handler parseError st'
  | (inr _, st') => st'
  end.

Declare Scope js_scope.
Delimit Scope js_scope with js.
Notation "x <- m ;; k" := (bind m (fun x => k))
  (at level 61, m at next level, right associativity) : js_scope.
Notation "m ;; k" := (bind m (fun _ => k))
  (at level 61, right associativity) : js_scope.
Local Open Scope js_scope.

Definition setLoading (b : bool) := perform (SetLoading b).
Definition setError (e : option jsstring) := perform (SetError e).
Definition setAiAnalysis (v : jsval) := perform (SetAiAnalysis v).
Definition setLoadingProgress (v : jsval) := perform (SetLoadingProgress v).
Definition setRealTimeProgress (p : option Progress) :=
  perform (SetRealTimeProgress p).
Definition console_warn (parseError : exn) := perform (ConsoleWarn parseError).

(** [data.step === 'processing_journeys' && data.total], as a condition. *)
Definition counting (data : json) : M bool :=
  step <- lift (Get data "step") ;;
  if strict_eq step "processing_journeys" then
    total <- lift (Get data "total") ;;
    ret (truthy total)
  else ret false.

(** The statements of the inner [try], on the text after the prefix. *)
Definition dispatch (payload : jsstring) : M unit :=
  data <- lift (JSON_parse payload) ;;
  call (Parsed data) ;;
  type <- lift (Get data "type") ;;
  if strict_eq type "progress" then
    c <- counting data ;;
    if c then
      current <- lift (Get data "current") ;;
      total <- lift (Get data "total") ;;
      percentage <- lift (Get data "percentage") ;;
      message <- lift (Get data "message") ;;
      call (SetRealTimeProgress
              (Some (mkProgress current total percentage message)))
    else
      message <- lift (Get data "message") ;;
      call (SetLoadingProgress message)
  else
    type <- lift (Get data "type") ;;
    if strict_eq type "complete" then
      result <- lift (Get data "data") ;;
      call (SetHistogramData result) ;;
      call (SetLoadingProgress null) ;;
      call (SetRealTimeProgress None) ;;
      call SetTimeoutScroll
    else
      type <- lift (Get data "type") ;;
      if strict_eq type "error" then
        message <- lift (Get data "message") ;;
        throw (Error message)
      else ret tt.

(** The body of [for (const line of lines)]. *)
Definition handle_line (st : State) (line : jsstring) : State :=
  if startsWith line (js "data: ") then
    try_catch (dispatch (substring 6 line)) console_warn st
  else st.

(** *** The read loop *)

(** The variables the loop carries: [decoder], [buffer] and the
    component's state. *)
Definition Loop : Type := TextDecoder.t * jsstring * State.

(** One iteration of [while (true)] on a [value] that [reader.read()]
    delivered with [done] false. *)
Definition iteration (l : Loop) (value : list byte) : Loop :=
  let '(decoder, buffer, st) := l in
  let (decoder, text) := TextDecoder.decode decoder value in
  let buffer := buffer ++ text in
  let lines := split buffer in
  let (popped, lines) := pop lines in
  let buffer := or_empty popped in
  (decoder, buffer, fold_left handle_line lines st).

(** How the reads of a response body end: [{ done: true }], or a rejected
    read whose reason has the given [message]. *)
Inductive ReadEnd :=
| Done
| Rejected (message : jsstring).

(** What [fetch] meets: a rejection, or a response with its status and
    the chunks its body delivers.  The request ([getDateRange], the
    request body) has no part in how the response is consumed and is left
    out; a response has a body to read. *)
Inductive Network :=
| FetchRejected (message : jsstring)
| Response (status : N) (chunks : list (list byte)) (ending : ReadEnd).

Definition ok (status : N) : bool := ((200 <=? status) && (status <=? 299))%N.

Definition decimal (n : N) : jsstring :=
  js (NilZero.string_of_uint (N.to_uint n)).

(** The outer [try] block: the message of what it throws, if it throws. *)
Definition try_block (net : Network) (st : State) : option jsstring * State :=
  let st := setLoadingProgress (str "Connecting to streaming service...") st in
  match net with
  | FetchRejected m => (Some m, st)
  | Response status chunks ending =>
      if negb (ok status) then
        (Some (js "HTTP error! status: " ++ decimal status), st)
      else
        let '(_, _, st) :=
          fold_left iteration chunks (TextDecoder.new, [], st) in
        match ending with
        | Done => (None, st)
        | Rejected m => (Some m, st)
        end
  end.

Definition fetchJourneyAnalysis (net : Network) (st : State) : State :=
  let st := setLoading true st in
  let st := setError None st in
  let st := setAiAnalysis null st in
  let st := setLoadingProgress (str "Initializing request...") st in
  let st := setRealTimeProgress None st in
  let (thrown, st) := try_block net st in
  let st :=
    match thrown with
    | Some err_message => setError (Some (js "Failed to fetch data: " ++ err_message)) st
    | None => st
    end in
  let st := setLoading false st in
  let st := setLoadingProgress null st in
  setRealTimeProgress None st.

(** The component's state before any request. *)
Definition initial : State := mkState null false None null null None [].

End App.

Import JSON App.

(* ===================================================================== *)
(** ** Vocabulary of the statements *)
(* ===================================================================== *)

(** The text the decoder returns over a whole stream of chunks. *)
Definition decoded (chunks : list (list byte)) : jsstring :=
  snd (TextDecoder.decode TextDecoder.new (List.concat chunks)).

(** The pieces of a text that a line feed ends. *)
Definition complete_lines (text : jsstring) : list jsstring :=
  removelast (split text).

(** The piece after the last line feed. *)
Definition remainder (text : jsstring) : jsstring := last (split text) [].

Definition performs (es : list effect) (st : State) : State :=
  fold_left (fun s e => perform e s) es st.

(** The effects of the loop body on one line. *)
Definition line_effects (line : jsstring) : list effect :=
  trace (handle_line initial line).

(** [data.key] where the read does not throw. *)
Definition prop (data : json) (key : string) : jsval :=
  match Get data key with
  | inr v => v
  | inl _ => None
  end.

(** [data.type === kind] for a parsed [data]. *)
Definition has_type (data : json) (kind : string) : bool :=
  strict_eq (prop data "type") kind.

(** The values [data] was bound to, in order. *)
Fixpoint parsed_events (tr : list effect) : list json :=
  match tr with
  | [] => []
  | Parsed data :: r => data :: parsed_events r
  | _ :: r => parsed_events r
  end.

(** The terminal outcomes of the specification's session.  The component
    reports a result through [setHistogramData] and a failure through
    [setError] with a message; it has nothing that reports a
    cancellation. *)
Inductive Outcome :=
| success (result : jsval)
| failure (message : jsstring)
| cancelled.

Fixpoint outcomes (tr : list effect) : list Outcome :=
  match tr with
  | [] => []
  | SetHistogramData v :: r => success v :: outcomes r
  | SetError (Some m) :: r => failure m :: outcomes r
  | _ :: r => outcomes r
  end.

(** The setter call a [progress] event is delivered through. *)
Definition progress_effect (data : json) : effect :=
  if strict_eq (prop data "step") "processing_journeys"
     && truthy (prop data "total")
  then SetRealTimeProgress
         (Some (mkProgress (prop data "current") (prop data "total")
                           (prop data "percentage") (prop data "message")))
  else SetLoadingProgress (prop data "message").

(** Wire text for the examples, written with an apostrophe for the
    double quote and a vertical bar for the line feed. *)
Definition wire_char (c : N) : N :=
  if (c =? 39)%N then 34%N else if (c =? 124)%N then 10%N else c.

Definition text (s : string) : jsstring :=
  List.map (fun a => Z.of_N (wire_char (N_of_ascii a))) (list_ascii_of_string s).

Definition wire (s : string) : list byte :=
  List.map (fun a => match Byte.of_N (wire_char (N_of_ascii a)) with
                     | Some b => b
                     | None => x00
                     end) (list_ascii_of_string s).

(** *** Effects as lists, outcomes and example events *)

(** A computation that never reads the state: its result and its effects
    are the same from every state. *)
Definition effects_only {A} (m : M A) : Prop :=
  exists r es, forall st, m st = (r, performs es st).

(** What the loop body does with a parsed [data], after binding it. *)
Definition event_effects (data : json) : list effect :=
  match data with
  | JNull => [ConsoleWarn TypeError]
  | _ =>
      if has_type data "progress" then [progress_effect data]
      else if has_type data "complete" then
        [SetHistogramData (prop data "data"); SetLoadingProgress null;
         SetRealTimeProgress None; SetTimeoutScroll]
      else if has_type data "error" then
        [ConsoleWarn (Error (prop data "message"))]
      else []
  end.

(** What the loop body does with the text after the prefix. *)
Definition payload_effects (payload : jsstring) : list effect :=
  match JSON_parse payload with
  | inl e => [ConsoleWarn e]
  | inr data => Parsed data :: event_effects data
  end.

Definition prologue : list effect :=
  [SetLoading true; SetError None; SetAiAnalysis null;
   SetLoadingProgress (str "Initializing request...");
   SetRealTimeProgress None;
   SetLoadingProgress (str "Connecting to streaming service...")].

(** The [catch] and [finally] blocks, given the message of what the [try]
    block threw. *)
Definition epilogue (thrown : option jsstring) : list effect :=
  match thrown with
  | Some m => [SetError (Some (js "Failed to fetch data: " ++ m))]
  | None => []
  end ++ [SetLoading false; SetLoadingProgress null; SetRealTimeProgress None].

Definition thrown_by (ending : ReadEnd) : option jsstring :=
  match ending with
  | Done => None
  | Rejected m => Some m
  end.

(** The effects of the read loop over a stream. *)
Definition stream_effects (chunks : list (list byte)) : list effect :=
  flat_map line_effects (complete_lines (decoded chunks)).

(** The effects of one call of [fetchJourneyAnalysis]. *)
Definition session_effects (net : Network) : list effect :=
  trace (fetchJourneyAnalysis net initial).

(** The outcome an event makes the loop body report. *)
Definition result_of (data : json) : list Outcome :=
  if has_type data "complete" then [success (prop data "data")] else [].

Definition terminal (data : json) : bool :=
  has_type data "complete" || has_type data "error".

Definition num (n : Z) : json := JNumber (mkNumber false n 0).

Definition error_boom : json :=
  JObject [(js "type", JString (js "error"));
           (js "message", JString (js "boom"))].

Definition complete_x (n : Z) : json :=
  JObject [(js "type", JString (js "complete"));
           (js "data", JObject [(js "x", num n)])].

Definition progress_phase (label : string) : json :=
  JObject [(js "type", JString (js "progress"));
           (js "message", JString (js label))].

(** The first example frame of the wire format: a [progress] event with
    [current], [total], [percentage] and [message], and no [step]. *)
Definition progress_120_of_500 : json :=
  JObject [(js "type", JString (js "progress"));
           (js "current", num 120);
           (js "total", num 500);
           (js "percentage", JNumber (mkNumber false 240 (-1)));
           (js "message", JString (js "Processing journeys..."))].

Definition progress_step_120_of_500 : json :=
  JObject [(js "type", JString (js "progress"));
           (js "step", JString (js "processing_journeys"));
           (js "current", num 120);
           (js "total", num 500);
           (js "percentage", JNumber (mkNumber false 240 (-1)));
           (js "message", JString (js "Processing journeys..."))].

Fixpoint successes (os : list Outcome) : list jsval :=
  match os with
  | [] => []
  | success v :: r => v :: successes r
  | _ :: r => successes r
  end.

Definition no_event_of_type (kind : string) (events : list json) : bool :=
  forallb (fun d => negb (has_type d kind)) events.

(** A result that is not a lack of fuel, and that leaves no more text
    than it was given. *)
Definition fuel_ok (p : presult) (s : jsstring) : Prop :=
  p <> POutOfFuel /\
  forall v r, p = POk v r -> (List.length r <= List.length s)%nat.

(* ===================================================================== *)
(** ** The progress display of the component *)
(* ===================================================================== *)

Module Render.

(** [(loadingProgress || realTimeProgress) && ( ... )]: whether the
    progress block is rendered. *)
Definition progress_shown (st : State) : bool :=
  truthy (loadingProgress st) ||
  match realTimeProgress st with
  | Some _ => true
  | None => false
  end.

End Render.

(** The value a line binds [data] to, when it is an event line whose
    payload parses. *)
Definition line_event (line : jsstring) : option json :=
  if startsWith line (js "data: ") then
    match JSON_parse (substring 6 line) with
    | inr data => Some data
    | inl _ => None
    end
  else None.

(** [data.step === 'processing_journeys' && data.total], as a value. *)
Definition counting_event (data : json) : bool :=
  strict_eq (prop data "step") "processing_journeys"
  && truthy (prop data "total").

(** A line whose handling writes the numeric snapshot: one carrying a
    [progress] event that counts (line 287) or a [complete] event
    (line 300). *)
Definition writes_snapshot (line : jsstring) : bool :=
  match line_event line with
  | Some data =>
      (has_type data "progress" && counting_event data)
      || has_type data "complete"
  | None => false
  end.

(** The effects the loop body can have. *)
Definition loop_effect (e : effect) : bool :=
  match e with
  | SetLoadingProgress _ | SetRealTimeProgress _ | SetHistogramData _
  | SetTimeoutScroll | ConsoleWarn _ | Parsed _ => true
  | SetLoading _ | SetError _ | SetAiAnalysis _ => false
  end.

(* ===================================================================== *)
(** ** The form: station codes, time fields, year options *)
(* ===================================================================== *)

Module Form.

(** [[A-Za-z]]. *)
Definition is_letter (c : Z) : bool :=
  ((65 <=? c) && (c <=? 90)) || ((97 <=? c) && (c <=? 122)).

(** [value.match(/^[A-Za-z]{3}$/)], as a condition: the whole value is
    three letters. *)
Definition match_code (value : jsstring) : bool :=
  match value with
  | [a; b; c] => is_letter a && is_letter b && is_letter c
  | _ => false
  end.

(** [toUpperCase()] on a string of ASCII letters, the only strings it is
    called on here. *)
Definition toUpperCase (s : jsstring) : jsstring :=
  List.map (fun c => if (97 <=? c) && (c <=? 122) then c - 32 else c) s.

(** The [onChange] handler of a station input, after the suggestions are
    requested: the code it calls [setFromLocation] ([setToLocation]) with,
    if it does. *)
Definition onChange_code (value : jsstring) : option jsstring :=
  if (Nat.eqb (List.length value) 3) && match_code value
  then Some (toUpperCase value)
  else None.

(** [replace(':', '')]: the first colon removed. *)
Fixpoint replace_colon (s : jsstring) : jsstring :=
  match s with
  | [] => []
  | c :: r => if c =? 58 then r else c :: replace_colon r
  end.

(** [fromTime.slice(0, 2) + ':' + fromTime.slice(2)]: the [value] of a
    time input. *)
Definition time_value (time : jsstring) : jsstring :=
  firstn 2 time ++ [58] ++ skipn 2 time.

(** The [onChange] handler of a time input: what it calls [setFromTime]
    ([setToTime]) with. *)
Definition onChange_time (value : jsstring) : jsstring := replace_colon value.

(** The loop of [generateYearOptions]: [fuel] bounds the iterations. *)
Fixpoint push_years (fuel : nat) (year currentYear : Z) (years : list Z)
  : list Z :=
  match fuel with
  | O => years
  | S f =>
      if year <=? currentYear
      then push_years f (year + 1) currentYear (years ++ [year])
      else years
  end.

(** [generateYearOptions], given the year of the clock. *)
Definition generateYearOptions (currentYear : Z) : list Z :=
  push_years (Z.to_nat (currentYear - 2015)) 2016 currentYear [].

End Form.

(* ===================================================================== *)
(** ** [getStationsFromRoute] *)
(* ===================================================================== *)

Module Route.

(** [\s], which is also what [trim] strips: white space and line
    terminators. *)
Definition is_space (c : Z) : bool :=
  ((9 <=? c) && (c <=? 13)) || (c =? 32) || (c =? 0xA0) || (c =? 0x1680)
  || ((0x2000 <=? c) && (c <=? 0x200A))
  || (c =? 0x2028) || (c =? 0x2029) || (c =? 0x202F) || (c =? 0x205F)
  || (c =? 0x3000) || (c =? 0xFEFF).

(** The number of leading spaces. *)
Fixpoint spaces (s : jsstring) : nat :=
  match s with
  | c :: r => if is_space c then S (spaces r) else O
  | [] => O
  end.

Definition trimStart (s : jsstring) : jsstring := skipn (spaces s) s.

Fixpoint trimEnd (s : jsstring) : jsstring :=
  match s with
  | [] => []
  | c :: r => if forallb is_space s then [] else c :: trimEnd r
  end.

(** [String.prototype.trim]. *)
Definition trim (s : jsstring) : jsstring := trimEnd (trimStart s).

(** The regular expressions tried: [/\s*c\s*/] for a character [c] that
    is not a space, and [/\s+to\s+/i]. *)
Inductive separator :=
| Around (c : Z)
| To.

Definition arrow : Z := 0x2192.
Definition hyphen : Z := 45.

Definition separators : list separator :=
  [Around arrow; Around hyphen; Around 0x2013; Around 0x2014; To; Around 62].

(** The length of the match of a separator at the very start of [s], if
    it matches there.  The spaces are matched greedily; giving some back
    never helps, for a space is neither the character nor a [t]. *)
Definition match_at (sep : separator) (s : jsstring) : option nat :=
  let n := spaces s in
  match sep with
  | Around x =>
      match skipn n s with
      | c :: r => if c =? x then Some (n + 1 + spaces r)%nat else None
      | [] => None
      end
  | To =>
      match n, skipn n s with
      | S _, t :: o :: r =>
          if ((t =? 116) || (t =? 84)) && ((o =? 111) || (o =? 79)) then
            match spaces r with
            | S m => Some (n + 2 + S m)%nat
            | O => None
            end
          else None
      | _, _ => None
      end
  end.

(** [routeText.split(sep)] for a separator that matches no empty string:
    the text is scanned from the left; [piece] holds, reversed, the
    characters since the end of the last match, [skip] the characters of
    the current match still to pass. *)
Fixpoint split_go (sep : separator) (piece : jsstring) (skip : nat)
  (s : jsstring) : list jsstring :=
  match s with
  | [] => [rev piece]
  | c :: r =>
      match skip with
      | S k => split_go sep piece k r
      | O =>
          match match_at sep s with
          | Some n => rev piece :: split_go sep [] (n - 1) r
          | None => split_go sep (c :: piece) 0 r
          end
      end
  end.

Definition split_regex (sep : separator) (s : jsstring) : list jsstring :=
  split_go sep [] 0 s.

(** [s || fallback] for strings. *)
Definition or_else (s fallback : jsstring) : jsstring :=
  match s with
  | [] => fallback
  | _ => s
  end.

(** The [for] loop over the separators. *)
Fixpoint try_separators (seps : list separator) (routeText : jsstring)
  (fromLocation toLocation : jsstring) : jsstring * jsstring :=
  match seps with
  | [] => (fromLocation, toLocation)
  | sep :: rest =>
      match split_regex sep routeText with
      | [p0; p1] =>
          (or_else (trim (or_else p0 [])) fromLocation,
           or_else (trim (or_else p1 [])) toLocation)
      | _ => try_separators rest routeText fromLocation toLocation
      end
  end.

Definition getStationsFromRoute (fromLocation toLocation : jsstring)
  (routeText : jsval) : jsstring * jsstring :=
  match routeText with
  | Some (JString (c :: r)) =>
      try_separators separators (c :: r) fromLocation toLocation
  | _ => (fromLocation, toLocation)
  end.

(** [histogramData?.route]. *)
Definition route_of (histogramData : jsval) : jsval :=
  match histogramData with
  | Some (JObject members) => lookup (js "route") members
  | _ => None
  end.

(** The labels the component renders:
    [getStationsFromRoute(histogramData?.route || `${fromLocation} -> ${toLocation}`)],
    where the template has the arrow U+2192 between two spaces. *)
Definition labels (histogramData : jsval) (fromLocation toLocation : jsstring)
  : jsstring * jsstring :=
  getStationsFromRoute fromLocation toLocation
    (if truthy (route_of histogramData) then route_of histogramData
     else Some (JString (fromLocation ++ [32; arrow; 32] ++ toLocation))).

End Route.

(* ===================================================================== *)
(** ** [createChartData] *)
(* ===================================================================== *)

Module Chart.

(** The value of a key that is an array index: a canonical decimal (no
    leading zero) of at most [2^32 - 2]. *)
Definition index_value (k : jsstring) : option Z :=
  match k with
  | [] => None
  | c :: r =>
      if forallb is_digit k
         && ((c =? 48) && (match r with [] => true | _ => false end)
             || negb (c =? 48))
         && (digits_value (List.map (fun d => d - 48) k) <=? 4294967294)
      then Some (digits_value (List.map (fun d => d - 48) k))
      else None
  end.

Definition is_index (k : jsstring) : bool :=
  match index_value k with
  | Some _ => true
  | None => false
  end.

Definition index_leb (k1 k2 : jsstring) : bool :=
  match index_value k1, index_value k2 with
  | Some v1, Some v2 => v1 <=? v2
  | _, _ => true
  end.

Fixpoint insert (k : jsstring) (l : list jsstring) : list jsstring :=
  match l with
  | [] => [k]
  | x :: r => if index_leb k x then k :: l else x :: insert k r
  end.

Fixpoint sort (l : list jsstring) : list jsstring :=
  match l with
  | [] => []
  | k :: r => insert k (sort r)
  end.

(** The keys of an object literal in the order they were first written. *)
Fixpoint first_keys (ks : list jsstring) : list jsstring :=
  match ks with
  | [] => []
  | k :: r => k :: filter (fun k' => negb (jsstring_eqb k' k)) (first_keys r)
  end.

(** The own keys of a parsed object in property order: the array indices
    in ascending order, then the other keys in the order they were first
    written. *)
Definition own_keys (members : list (jsstring * json)) : list jsstring :=
  let ks := first_keys (List.map fst members) in
  sort (filter is_index ks) ++ filter (fun k => negb (is_index k)) ks.

Definition indices (n : nat) : list jsstring :=
  List.map (fun i => decimal (N.of_nat i)) (seq 0 n).

(** [Object.keys(histogram)]. *)
Definition Object_keys (histogram : json) : list jsstring :=
  match histogram with
  | JObject members => own_keys members
  | JArray elements => indices (List.length elements)
  | JString s => indices (List.length s)
  | _ => []
  end.

(** [Object.values(histogram)]. *)
Definition Object_values (histogram : json) : list json :=
  match histogram with
  | JObject members =>
      flat_map (fun k => match lookup k members with
                         | Some v => [v]
                         | None => []
                         end) (own_keys members)
  | JArray elements => elements
  | JString s => List.map (fun c => JString [c]) s
  | _ => []
  end.

(** [color.replace('0.6', '1')]: the first occurrence replaced. *)
Fixpoint replace_06 (s : jsstring) : jsstring :=
  match s with
  | [] => []
  | c :: r =>
      if startsWith s (js "0.6") then js "1" ++ skipn 3 s
      else c :: replace_06 r
  end.

Record dataset := mkDataset {
  label : jsstring;
  data : list json;
  backgroundColor : jsstring;
  borderColor : jsstring;
  borderWidth : Z
}.

Record chart := mkChart {
  labels : list jsstring;
  datasets : list dataset
}.

(** [delayData.histogram], for a truthy [delayData]. *)
Definition histogram_of (delayData : jsval) : jsval :=
  match delayData with
  | Some (JObject members) => lookup (js "histogram") members
  | _ => None
  end.

(** [createChartData(delayData, title, color)]; [None] is [null]. *)
Definition createChartData (delayData : jsval) (title color : jsstring)
  : option chart :=
  if negb (truthy delayData) then None
  else
    match histogram_of delayData with
    | Some histogram =>
        if negb (truthy (Some histogram)) then None
        else
          Some (mkChart (Object_keys histogram)
                  [mkDataset (title ++ js " (Services)")
                             (Object_values histogram)
                             color (replace_06 color) 1])
    | None => None
    end.

End Chart.

(** A parse result with one more character left after it. *)
Definition app_rest (w : Z) (p : presult) : presult :=
  match p with
  | POk v r => POk v (r ++ [w])
  | e => e
  end.

Definition app_snd {A} (w : Z) (o : option (A * jsstring))
  : option (A * jsstring) :=
  match o with
  | Some (a, r) => Some (a, r ++ [w])
  | None => None
  end.

Definition CR : Z := 13.

(* ===================================================================== *)
(** ** Strings, lines and the decoder *)
(* ===================================================================== *)

Lemma split_nonempty (s : jsstring) : split s <> [].
Proof.
  destruct s as [|c r]; simpl; [discriminate|].
  destruct (c =? LF); [discriminate|].
  destruct (split r); discriminate.
Qed.

Lemma split_cons_LF (r : jsstring) : split (LF :: r) = [] :: split r.
Proof. reflexivity. Qed.

Lemma split_cons_other (c : Z) (r : jsstring) :
  (c =? LF) = false ->
  split (c :: r) = (c :: hd [] (split r)) :: tl (split r).
Proof.
  intros H. simpl. rewrite H.
  pose proof (split_nonempty r) as Hne.
  destruct (split r); [contradiction|reflexivity].
Qed.

(** Splitting a concatenation: the complete lines of the first part, then
    the split of its remainder followed by the second part. *)
Lemma split_app (a b : jsstring) :
  split (a ++ b) = complete_lines a ++ split (remainder a ++ b).
Proof.
  unfold complete_lines, remainder.
  induction a as [|c a IH]; simpl; [reflexivity|].
  pose proof (split_nonempty a) as Hne.
  destruct (c =? LF) eqn:E.
  - rewrite IH. simpl. destruct (split a) as [|l ls]; [contradiction|].
    reflexivity.
  - rewrite IH. destruct (split a) as [|l ls]; [contradiction|].
    destruct ls as [|l' ls'].
    + simpl. rewrite E.
      pose proof (split_nonempty (l ++ b)) as Hb.
      destruct (split (l ++ b)); [contradiction|reflexivity].
    + simpl. reflexivity.
Qed.

Lemma pop_split (s : jsstring) :
  pop (split s) = (Some (remainder s), complete_lines s).
Proof.
  unfold pop, remainder, complete_lines.
  pose proof (split_nonempty s) as Hne.
  destruct (split s) as [|x r]; [contradiction|].
  f_equal. f_equal.
  clear Hne. revert x. induction r as [|y r IH]; intros x; [reflexivity|].
  simpl in *. destruct r; [reflexivity|]. apply IH.
Qed.

Lemma or_empty_Some (s : jsstring) : or_empty (Some s) = s.
Proof. destruct s; reflexivity. Qed.

Lemma complete_lines_app (a b : jsstring) :
  complete_lines (a ++ b) = complete_lines a ++ complete_lines (remainder a ++ b).
Proof.
  unfold complete_lines at 1. rewrite split_app.
  rewrite removelast_app by apply split_nonempty. reflexivity.
Qed.

Lemma last_app_nonempty {A} (l l' : list A) (d : A) :
  l' <> [] -> last (l ++ l') d = last l' d.
Proof.
  intros Hne. induction l as [|x l IH]; [reflexivity|].
  simpl. destruct (l ++ l') eqn:E; [|exact IH].
  apply app_eq_nil in E. destruct E; contradiction.
Qed.

Lemma remainder_app (a b : jsstring) :
  remainder (a ++ b) = remainder (remainder a ++ b).
Proof.
  unfold remainder at 1. rewrite split_app.
  rewrite last_app_nonempty by apply split_nonempty. reflexivity.
Qed.

Lemma decode_app (d : TextDecoder.t) (a b : list byte) :
  TextDecoder.decode d (a ++ b) =
  let (d1, s1) := TextDecoder.decode d a in
  let (d2, s2) := TextDecoder.decode d1 b in
  (d2, s1 ++ s2).
Proof.
  revert d. induction a as [|x a IH]; intros d; simpl.
  - destruct (TextDecoder.decode d b); reflexivity.
  - destruct (TextDecoder.decode_byte d x) as [d1 s1].
    rewrite IH.
    destruct (TextDecoder.decode d1 a) as [d2 s2].
    destruct (TextDecoder.decode d2 b) as [d3 s3].
    rewrite app_assoc. reflexivity.
Qed.

(** A three-byte character cut between two chunks; a byte order mark, a
    character outside the basic plane and an invalid byte. *)
Example decode_examples :
  decoded [[x61; xe2; x82]; [xac; x0a]] = [97; 0x20AC; 10] /\
  decoded [[xef; xbb; xbf; x61; xf0; x9f; x98; x80; xff]] =
    [97; 0xD83D; 0xDE00; 0xFFFD] /\
  decoded [[xed; xa0; x80]] = [0xFFFD; 0xFFFD; 0xFFFD].
Proof. repeat split; vm_compute; reflexivity. Qed.

(** ASCII bytes decode to themselves, in any chunk and with no byte
    retained. *)
Lemma decode_ascii (d : TextDecoder.t) (bytes : list byte) :
  TextDecoder.bytes_needed d = 0 ->
  Forall (fun b => (Byte.to_N b < 128)%N) bytes ->
  snd (TextDecoder.decode d bytes) =
    List.map (fun b => Z.of_N (Byte.to_N b)) bytes /\
  TextDecoder.bytes_needed (fst (TextDecoder.decode d bytes)) = 0.
Proof.
  intros Hd Hall. revert d Hd.
  induction Hall as [|b bytes Hb _ IH]; intros d Hd; [split; [reflexivity|exact Hd]|].
  simpl. unfold TextDecoder.decode_byte, TextDecoder.handler.
  rewrite Hd. simpl. unfold TextDecoder.lead, TextDecoder.between.
  assert (H0 : 0 <= Z.of_N (Byte.to_N b) <= 127) by lia.
  replace (0 <=? Z.of_N (Byte.to_N b)) with true by (symmetry; apply Z.leb_le; lia).
  replace (Z.of_N (Byte.to_N b) <=? 127) with true by (symmetry; apply Z.leb_le; lia).
  simpl.
  replace (Z.of_N (Byte.to_N b) =? 65279) with false by (symmetry; apply Z.eqb_neq; lia).
  rewrite andb_false_r. unfold TextDecoder.code_units.
  replace (Z.of_N (Byte.to_N b) <? 65536) with true by (symmetry; apply Z.ltb_lt; lia).
  simpl.
  match goal with
  | |- context [TextDecoder.decode ?d' bytes] =>
      destruct (IH d') as [IH1 IH2]; [exact Hd|];
      destruct (TextDecoder.decode d' bytes) as [d2 s2]
  end.
  simpl in *. rewrite IH1. split; [reflexivity|exact IH2].
Qed.

(* ===================================================================== *)
(** ** [JSON.parse] never runs out of fuel *)
(* ===================================================================== *)

Lemma skip_ws_length (s : jsstring) :
  (List.length (skip_ws s) <= List.length s)%nat.
Proof.
  induction s as [|c r IH]; simpl; [lia|].
  destruct (is_ws c); simpl; lia.
Qed.

Lemma peek_length (c : Z) (s r : jsstring) :
  peek c s = Some r -> (S (List.length r) = List.length s)%nat.
Proof.
  destruct s as [|x s]; simpl; [discriminate|].
  destruct (x =? c); [|discriminate]. intros H. injection H as ->. reflexivity.
Qed.

Lemma cons_fst_length (c : Z) (o : option (jsstring * jsstring))
  (k r : jsstring) (n : nat) :
  (forall k' r', o = Some (k', r') -> (List.length r' <= n)%nat) ->
  cons_fst c o = Some (k, r) -> (List.length r <= n)%nat.
Proof.
  intros H. destruct o as [[k' r']|]; simpl; [|discriminate].
  intros E. injection E as _ <-. apply (H k' r'). reflexivity.
Qed.

Lemma parse_string_length (n : nat) (s k r : jsstring) :
  (List.length s <= n)%nat ->
  parse_string s = Some (k, r) -> (List.length r <= List.length s)%nat.
Proof.
  revert s k r. induction n as [|n IH]; intros s k r Hn.
  - destruct s; [discriminate|simpl in Hn; lia].
  - destruct s as [|c s]; [discriminate|]. simpl in Hn. simpl parse_string.
    destruct (c =? 34).
    { intros H. injection H as _ <-. simpl. lia. }
    destruct (c =? 92).
    + destruct s as [|e s1]; [discriminate|]. simpl in Hn.
      destruct (e =? 117).
      * destruct s1 as [|h1 [|h2 [|h3 [|h4 s2]]]]; try discriminate.
        simpl in Hn. destruct (hex4 h1 h2 h3 h4); [|discriminate].
        intros H. apply cons_fst_length with (n := List.length s2) in H.
        -- simpl. lia.
        -- intros k' r'. apply IH. lia.
      * destruct (escape e); [|discriminate].
        intros H. apply cons_fst_length with (n := List.length s1) in H.
        -- simpl. lia.
        -- intros k' r'. apply IH. lia.
    + destruct (c <? 32); [discriminate|].
      intros H. apply cons_fst_length with (n := List.length s) in H.
      * simpl. lia.
      * intros k' r'. apply IH. lia.
Qed.

Lemma digits_length (s : jsstring) :
  (List.length (snd (digits s)) <= List.length s)%nat.
Proof.
  induction s as [|c r IH]; simpl; [lia|].
  destruct (is_digit c); simpl; [|lia].
  destruct (digits r); simpl in *. lia.
Qed.

Lemma parse_number_length (s : jsstring) (n : number) (r : jsstring) :
  parse_number s = Some (n, r) -> (List.length r <= List.length s)%nat.
Proof.
  unfold parse_number.
  assert (H1 : forall s1 ints s2, parse_int s1 = Some (ints, s2) ->
               (List.length s2 <= List.length s1)%nat).
  { intros s1 ints s2. unfold parse_int. destruct s1 as [|c t]; [discriminate|].
    destruct (c =? 48); [intros H; injection H as _ <-; simpl; lia|].
    destruct (is_digit c); [|discriminate].
    pose proof (digits_length t). destruct (digits t).
    intros H'. injection H' as _ <-. simpl in *. lia. }
  assert (H2 : forall s2 fr s3, parse_fraction s2 = Some (fr, s3) ->
               (List.length s3 <= List.length s2)%nat).
  { intros s2 fr s3. unfold parse_fraction.
    destruct (peek 46 s2) as [t|] eqn:E.
    - apply peek_length in E. pose proof (digits_length t).
      destruct (digits t) as [[|d ds] rest]; [discriminate|].
      intros H'. injection H' as _ <-. simpl in *. lia.
    - intros H'. injection H' as _ <-. lia. }
  assert (H3 : forall s3 e s4, parse_exponent s3 = Some (e, s4) ->
               (List.length s4 <= List.length s3)%nat).
  { intros s3 e s4. unfold parse_exponent. destruct s3 as [|c t].
    - intros H'. injection H' as _ <-. lia.
    - destruct ((c =? 101) || (c =? 69)).
      + assert (Hs : (List.length (snd (parse_sign t)) <= List.length t)%nat).
        { unfold parse_sign. destruct (peek 45 t) eqn:E1.
          - apply peek_length in E1. simpl. lia.
          - destruct (peek 43 t) eqn:E2; simpl; [|lia].
            apply peek_length in E2. lia. }
        destruct (parse_sign t) as [neg r1]. simpl in Hs.
        pose proof (digits_length r1).
        destruct (digits r1) as [[|d ds] rest]; [discriminate|].
        intros H'. injection H' as _ <-. simpl in *. lia.
      + intros H'. injection H' as _ <-. lia. }
  assert (H0 : (List.length
                  (snd (match peek 45 s with
                        | Some r0 => (true, r0)
                        | None => (false, s)
                        end)) <= List.length s)%nat).
  { destruct (peek 45 s) eqn:E; simpl; [|lia]. apply peek_length in E. lia. }
  destruct (match peek 45 s with Some r0 => (true, r0) | None => (false, s) end)
    as [neg s1]. simpl in H0.
  destruct (parse_int s1) as [[ints s2]|] eqn:E1; [|discriminate].
  destruct (parse_fraction s2) as [[fr s3]|] eqn:E2; [|discriminate].
  destruct (parse_exponent s3) as [[e s4]|] eqn:E3; [|discriminate].
  apply H1 in E1. apply H2 in E2. apply H3 in E3.
  intros H'. injection H' as _ <-. lia.
Qed.

Lemma parse_scalar_length (s : jsstring) :
  parse_scalar s <> POutOfFuel /\
  forall v r, parse_scalar s = POk v r -> (List.length r <= List.length s)%nat.
Proof.
  assert (L : forall w v, literal w v s <> POutOfFuel /\
              forall v' r, literal w v s = POk v' r ->
                           (List.length r <= List.length s)%nat).
  { intros w v. unfold literal. destruct (startsWith s (js w)).
    - split; [discriminate|]. intros v' r H. injection H as _ <-.
      rewrite length_skipn. lia.
    - split; [discriminate|]. intros v' r H. discriminate. }
  unfold parse_scalar. destruct s as [|c t]; [split; [discriminate|intros; discriminate]|].
  destruct (c =? 34).
  { destruct (parse_string t) as [[k r']|] eqn:E.
    - split; [discriminate|]. intros v r H. injection H as _ <-.
      apply parse_string_length with (n := List.length t) in E; simpl; lia.
    - split; [discriminate|intros; discriminate]. }
  destruct ((c =? 45) || is_digit c).
  { destruct (parse_number (c :: t)) as [[n r']|] eqn:E.
    - split; [discriminate|]. intros v r H. injection H as _ <-.
      apply parse_number_length in E. exact E.
    - split; [discriminate|intros; discriminate]. }
  destruct (c =? 116); [apply L|].
  destruct (c =? 102); [apply L|].
  destruct (c =? 110); [apply L|].
  split; [discriminate|intros; discriminate].
Qed.

Lemma fuel_ok_shorter (p : presult) (s' s : jsstring) :
  fuel_ok p s' -> (List.length s' <= List.length s)%nat -> fuel_ok p s.
Proof.
  intros [Hne Hle] Hs. split; [exact Hne|].
  intros v r H. specialize (Hle v r H). lia.
Qed.

Lemma fuel_ok_error (s : jsstring) : fuel_ok PSyntaxError s.
Proof. split; [discriminate|intros; discriminate]. Qed.

Lemma fuel_ok_value (v : json) (r s : jsstring) :
  (List.length r <= List.length s)%nat -> fuel_ok (POk v r) s.
Proof.
  intros H. split; [discriminate|].
  intros v' r' E. injection E as _ <-. exact H.
Qed.

Lemma parse_fuel (f : nat) :
  (forall s, (2 * List.length s < f)%nat -> fuel_ok (parse_value f s) s) /\
  (forall s acc, (2 * List.length s + 1 < f)%nat ->
                 fuel_ok (parse_elements f s acc) s) /\
  (forall s acc, (2 * List.length s + 1 < f)%nat ->
                 fuel_ok (parse_members f s acc) s).
Proof.
  induction f as [|f (IHv & IHe & IHm)].
  { repeat split; intros; lia. }
  split; [|split].
  - intros s Hs. simpl. pose proof (skip_ws_length s) as Hw.
    destruct (peek 123 (skip_ws s)) as [r|] eqn:E1.
    { apply peek_length in E1. pose proof (skip_ws_length r) as Hr.
      destruct (peek 125 (skip_ws r)) as [r'|] eqn:E2.
      - apply peek_length in E2. apply fuel_ok_value. lia.
      - apply fuel_ok_shorter with (s' := r); [apply IHm|]; lia. }
    destruct (peek 91 (skip_ws s)) as [r|] eqn:E2.
    { apply peek_length in E2. pose proof (skip_ws_length r) as Hr.
      destruct (peek 93 (skip_ws r)) as [r'|] eqn:E3.
      - apply peek_length in E3. apply fuel_ok_value. lia.
      - apply fuel_ok_shorter with (s' := r); [apply IHe|]; lia. }
    apply fuel_ok_shorter with (s' := skip_ws s); [|exact Hw].
    apply parse_scalar_length.
  - intros s acc Hs. simpl.
    destruct (IHv s) as [Hne Hle]; [lia|].
    destruct (parse_value f s) as [v r| |] eqn:E.
    + specialize (Hle v r eq_refl). pose proof (skip_ws_length r) as Hr.
      destruct (peek 44 (skip_ws r)) as [r'|] eqn:E1.
      { apply peek_length in E1.
        apply fuel_ok_shorter with (s' := r'); [apply IHe|]; lia. }
      destruct (peek 93 (skip_ws r)) as [r'|] eqn:E2.
      { apply peek_length in E2. apply fuel_ok_value. lia. }
      apply fuel_ok_error.
    + apply fuel_ok_error.
    + contradiction.
  - intros s acc Hs. simpl. pose proof (skip_ws_length s) as Hw.
    destruct (peek 34 (skip_ws s)) as [r|] eqn:E1; [|apply fuel_ok_error].
    apply peek_length in E1.
    destruct (parse_string r) as [[k r1]|] eqn:E2; [|apply fuel_ok_error].
    apply parse_string_length with (n := List.length r) in E2; [|lia].
    pose proof (skip_ws_length r1) as Hr1.
    destruct (peek 58 (skip_ws r1)) as [r2|] eqn:E3; [|apply fuel_ok_error].
    apply peek_length in E3.
    destruct (IHv r2) as [Hne Hle]; [lia|].
    destruct (parse_value f r2) as [v r3| |] eqn:E.
    + specialize (Hle v r3 eq_refl). pose proof (skip_ws_length r3) as Hr3.
      destruct (peek 44 (skip_ws r3)) as [r4|] eqn:E4.
      { apply peek_length in E4.
        apply fuel_ok_shorter with (s' := r4); [apply IHm|]; lia. }
      destruct (peek 125 (skip_ws r3)) as [r4|] eqn:E5.
      { apply peek_length in E5. apply fuel_ok_value. lia. }
      apply fuel_ok_error.
    + apply fuel_ok_error.
    + contradiction.
Qed.

Example JSON_parse_examples :
  JSON_parse (text " { 'a' : [1, -2.50e+3, true, null, 'x\u0041\n'] , 'a' : {} } ") =
    inr (JObject
           [(js "a", JArray [num 1; JNumber (mkNumber true 250 1); JBool true;
                             JNull; JString [120; 65; 10]]);
            (js "a", JObject [])]) /\
  JSON_parse (text "{'type':'progr") = inl SyntaxError /\
  JSON_parse (text "[1,]") = inl SyntaxError /\
  JSON_parse (text "01") = inl SyntaxError /\
  JSON_parse (text "{'a':1} x") = inl SyntaxError /\
  JSON_parse (text "") = inl SyntaxError.
Proof. repeat split; vm_compute; reflexivity. Qed.

(** [JSON_parse] fails on a text only where the grammar rejects it. *)
Lemma JSON_parse_fuel (text : jsstring) :
  parse_value (JSON_fuel text) text <> POutOfFuel.
Proof.
  apply (proj1 (parse_fuel (JSON_fuel text))). unfold JSON_fuel. lia.
Qed.

(* ===================================================================== *)
(** ** The read loop as a function of the whole stream *)
(* ===================================================================== *)

Lemma iteration_eq (decoder : TextDecoder.t) (buffer : jsstring) (st : State)
  (value : list byte) :
  iteration (decoder, buffer, st) value =
  (fst (TextDecoder.decode decoder value),
   remainder (buffer ++ snd (TextDecoder.decode decoder value)),
   fold_left handle_line
     (complete_lines (buffer ++ snd (TextDecoder.decode decoder value))) st).
Proof.
  unfold iteration.
  destruct (TextDecoder.decode decoder value) as [d t]. simpl.
  rewrite pop_split, or_empty_Some. reflexivity.
Qed.

(** Two chunks in a row are handled as their concatenation in one. *)
Lemma iteration_app (l : Loop) (a b : list byte) :
  iteration (iteration l a) b = iteration l (a ++ b).
Proof.
  destruct l as [[d buf] st].
  rewrite (iteration_eq d buf st a), iteration_eq, iteration_eq.
  rewrite decode_app.
  destruct (TextDecoder.decode d a) as [d1 t1]. simpl.
  destruct (TextDecoder.decode d1 b) as [d2 t2]. simpl.
  rewrite app_assoc.
  rewrite <- remainder_app, (complete_lines_app (buf ++ t1) t2), fold_left_app.
  reflexivity.
Qed.

Lemma iteration_nil (d : TextDecoder.t) (st : State) :
  iteration (d, [], st) [] = (d, [], st).
Proof. reflexivity. Qed.

Lemma loop_cons (chunks : list (list byte)) (l : Loop) (c : list byte) :
  fold_left iteration chunks (iteration l c) =
  iteration l (c ++ List.concat chunks).
Proof.
  revert c. induction chunks as [|c' cs IH]; intros c; simpl.
  - rewrite app_nil_r. reflexivity.
  - rewrite iteration_app, IH, app_assoc. reflexivity.
Qed.

Lemma loop_concat (chunks : list (list byte)) (d : TextDecoder.t) (st : State) :
  fold_left iteration chunks (d, [], st) =
  iteration (d, [], st) (List.concat chunks).
Proof.
  destruct chunks as [|c cs]; [reflexivity|].
  exact (loop_cons cs (d, [], st) c).
Qed.

(** The loop hands to the body exactly the complete lines of the decoded
    stream, in order, and leaves the remainder in [buffer]. *)
Lemma loop_spec (chunks : list (list byte)) (st : State) :
  fold_left iteration chunks (TextDecoder.new, [], st) =
  (fst (TextDecoder.decode TextDecoder.new (List.concat chunks)),
   remainder (decoded chunks),
   fold_left handle_line (complete_lines (decoded chunks)) st).
Proof.
  rewrite loop_concat, iteration_eq. reflexivity.
Qed.

(* ===================================================================== *)
(** ** The loop body only issues effects *)
(* ===================================================================== *)

Lemma performs_app (es es' : list effect) (st : State) :
  performs (es ++ es') st = performs es' (performs es st).
Proof. apply fold_left_app. Qed.

Lemma trace_performs (es : list effect) (st : State) :
  trace (performs es st) = trace st ++ es.
Proof.
  revert st. induction es as [|e es IH]; intros st; simpl.
  - rewrite app_nil_r. reflexivity.
  - rewrite IH. simpl. rewrite <- app_assoc. reflexivity.
Qed.

Lemma effects_only_ret {A} (a : A) : effects_only (ret a).
Proof. exists (inr a), []. reflexivity. Qed.

Lemma effects_only_lift {A} (r : exn + A) : effects_only (lift r).
Proof. exists r, []. reflexivity. Qed.

Lemma effects_only_throw {A} (e : exn) : effects_only (@throw A e).
Proof. exists (inl e), []. reflexivity. Qed.

Lemma effects_only_call (e : effect) : effects_only (call e).
Proof. exists (inr tt), [e]. reflexivity. Qed.

Lemma effects_only_bind {A B} (m : M A) (k : A -> M B) :
  effects_only m -> (forall a, effects_only (k a)) -> effects_only (bind m k).
Proof.
  intros (r & es & Hm) Hk. destruct r as [e|a].
  - exists (inl e), es. intros st. unfold bind. rewrite Hm. reflexivity.
  - destruct (Hk a) as (r' & es' & Hka).
    exists r', (es ++ es'). intros st. unfold bind.
    rewrite Hm, Hka, performs_app. reflexivity.
Qed.

Ltac effects_only :=
  repeat first
    [ apply effects_only_ret | apply effects_only_lift
    | apply effects_only_throw | apply effects_only_call
    | apply effects_only_bind; [|intros ?]
    | match goal with |- effects_only (if ?c then _ else _) => destruct c end ].

Lemma effects_only_dispatch (payload : jsstring) :
  effects_only (dispatch payload).
Proof. unfold dispatch, counting. effects_only. Qed.

Lemma handle_line_performs (st : State) (line : jsstring) :
  handle_line st line = performs (line_effects line) st.
Proof.
  assert (H : exists es, forall s, handle_line s line = performs es s).
  { unfold handle_line. destruct (startsWith line (js "data: ")).
    - destruct (effects_only_dispatch (substring 6 line)) as (r & es & H).
      unfold try_catch. destruct r as [e|u].
      + exists (es ++ [ConsoleWarn e]). intros s.
        rewrite H, performs_app. reflexivity.
      + exists es. intros s. rewrite H. reflexivity.
    - exists []. reflexivity. }
  destruct H as (es & H). unfold line_effects.
  rewrite (H initial), trace_performs. simpl. apply H.
Qed.

Lemma lines_perform (lines : list jsstring) (st : State) :
  fold_left handle_line lines st = performs (flat_map line_effects lines) st.
Proof.
  revert st. induction lines as [|l ls IH]; intros st; simpl; [reflexivity|].
  rewrite IH, handle_line_performs, performs_app. reflexivity.
Qed.

(* ===================================================================== *)
(** ** The effects of one line, by cases *)
(* ===================================================================== *)

Lemma startsWith_prefix (line : jsstring) :
  startsWith line (js "data: ") = true <-> firstn 6 line = js "data: ".
Proof.
  change (js "data: ") with [100; 97; 116; 97; 58; 32].
  split.
  - intros H.
    do 6 (destruct line as [|? line]; [discriminate|];
          simpl in H; apply andb_true_iff in H; destruct H as [?%Z.eqb_eq H];
          subst).
    reflexivity.
  - intros H.
    do 6 (destruct line as [|? line]; [discriminate|]).
    simpl in H. injection H as -> -> -> -> -> ->. reflexivity.
Qed.

Lemma prefix_split (line : jsstring) :
  firstn 6 line = js "data: " -> line = js "data: " ++ skipn 6 line.
Proof. intros H. rewrite <- H. symmetry. apply firstn_skipn. Qed.

Lemma dispatch_effects (payload : jsstring) (st : State) :
  try_catch (dispatch payload) console_warn st =
  performs (payload_effects payload) st.
Proof.
  unfold payload_effects, try_catch, dispatch, bind, lift, call, console_warn.
  destruct (JSON_parse payload) as [e|data]; [reflexivity|].
  unfold event_effects, has_type, progress_effect, prop, counting, bind, lift, ret.
  destruct data as [| b | n | s | l | members]; simpl; try reflexivity.
  destruct (strict_eq (lookup (js "type") members) "progress").
  - destruct (strict_eq (lookup (js "step") members) "processing_journeys");
      simpl; [|reflexivity].
    destruct (truthy (lookup (js "total") members)); reflexivity.
  - destruct (strict_eq (lookup (js "type") members) "complete");
      [reflexivity|].
    destruct (strict_eq (lookup (js "type") members) "error"); reflexivity.
Qed.

Lemma handle_event_line (payload : jsstring) (st : State) :
  handle_line st (js "data: " ++ payload) =
  performs (payload_effects payload) st.
Proof.
  unfold handle_line.
  change (startsWith (js "data: " ++ payload) (js "data: "))
    with (startsWith payload []).
  change (substring 6 (js "data: " ++ payload)) with payload.
  apply dispatch_effects.
Qed.

Lemma handle_other_line (line : jsstring) (st : State) :
  firstn 6 line <> js "data: " -> handle_line st line = st.
Proof.
  intros H. unfold handle_line.
  destruct (startsWith line (js "data: ")) eqn:E; [|reflexivity].
  apply startsWith_prefix in E. contradiction.
Qed.

Lemma line_effects_event (payload : jsstring) :
  line_effects (js "data: " ++ payload) = payload_effects payload.
Proof.
  unfold line_effects. rewrite handle_event_line, trace_performs. reflexivity.
Qed.

Lemma line_effects_other (line : jsstring) :
  firstn 6 line <> js "data: " -> line_effects line = [].
Proof.
  intros H. unfold line_effects. rewrite handle_other_line by exact H.
  reflexivity.
Qed.

(* ===================================================================== *)
(** ** The whole function as a list of effects *)
(* ===================================================================== *)

Lemma fetch_stream (status : N) (chunks : list (list byte)) (ending : ReadEnd)
  (st : State) :
  ok status = true ->
  fetchJourneyAnalysis (Response status chunks ending) st =
  performs (prologue ++ stream_effects chunks ++ epilogue (thrown_by ending)) st.
Proof.
  intros Hok. unfold fetchJourneyAnalysis, try_block. rewrite Hok. simpl negb.
  cbv iota. rewrite loop_spec, lines_perform.
  rewrite !performs_app. fold (stream_effects chunks).
  destruct ending; reflexivity.
Qed.

Lemma session_stream (status : N) (chunks : list (list byte)) (ending : ReadEnd) :
  ok status = true ->
  session_effects (Response status chunks ending) =
  prologue ++ stream_effects chunks ++ epilogue (thrown_by ending).
Proof.
  intros Hok. unfold session_effects.
  rewrite fetch_stream, trace_performs by exact Hok. reflexivity.
Qed.

Lemma fetch_performs (net : Network) (st : State) :
  fetchJourneyAnalysis net st = performs (session_effects net) st.
Proof.
  destruct net as [m | status chunks ending].
  - reflexivity.
  - destruct (ok status) eqn:Hok.
    + rewrite session_stream, fetch_stream by exact Hok. reflexivity.
    + unfold session_effects, fetchJourneyAnalysis, try_block.
      rewrite Hok. reflexivity.
Qed.

(* ===================================================================== *)
(** ** Events by type *)
(* ===================================================================== *)

Lemma jsstring_eqb_eq (a b : jsstring) : jsstring_eqb a b = true <-> a = b.
Proof.
  revert b. induction a as [|x a IH]; intros [|y b]; simpl;
    try (split; [discriminate|discriminate]); [tauto|].
  rewrite andb_true_iff, Z.eqb_eq, IH.
  split; [intros [-> ->]; reflexivity | intros H; injection H; auto].
Qed.

Lemma strict_eq_eq (v : jsval) (k : string) :
  strict_eq v k = true <-> v = str k.
Proof.
  unfold strict_eq, str. destruct v as [[| | |s| |]|]; try (split; discriminate).
  rewrite jsstring_eqb_eq. split; [intros ->; reflexivity|].
  intros H. injection H. auto.
Qed.

(** An event has one type. *)
Lemma has_type_excl (data : json) (k k' : string) :
  has_type data k = true -> js k <> js k' -> has_type data k' = false.
Proof.
  unfold has_type. intros H Hne.
  apply strict_eq_eq in H. rewrite H.
  destruct (strict_eq (str k) k') eqn:E; [|reflexivity].
  apply strict_eq_eq in E. unfold str in E. injection E. contradiction.
Qed.

Lemma has_type_not_null (data : json) (k : string) :
  has_type data k = true -> data <> JNull.
Proof. intros H ->. discriminate H. Qed.

Lemma event_effects_progress (data : json) :
  has_type data "progress" = true ->
  event_effects data = [progress_effect data].
Proof.
  intros H. unfold event_effects. rewrite H.
  destruct data; try reflexivity. discriminate H.
Qed.

Lemma event_effects_complete (data : json) :
  has_type data "complete" = true ->
  event_effects data =
  [SetHistogramData (prop data "data"); SetLoadingProgress null;
   SetRealTimeProgress None; SetTimeoutScroll].
Proof.
  intros H. unfold event_effects.
  rewrite (has_type_excl data "complete" "progress" H) by discriminate.
  rewrite H. destruct data; try reflexivity. discriminate H.
Qed.

Lemma event_effects_error (data : json) :
  has_type data "error" = true ->
  event_effects data = [ConsoleWarn (Error (prop data "message"))].
Proof.
  intros H. unfold event_effects.
  rewrite (has_type_excl data "error" "progress" H) by discriminate.
  rewrite (has_type_excl data "error" "complete" H) by discriminate.
  rewrite H. destruct data; try reflexivity. discriminate H.
Qed.

(** Every line is an event line or is passed over. *)
Lemma line_cases (line : jsstring) :
  (line = js "data: " ++ skipn 6 line /\
   line_effects line = payload_effects (skipn 6 line)) \/
  (firstn 6 line <> js "data: " /\ line_effects line = []).
Proof.
  destruct (list_eq_dec Z.eq_dec (firstn 6 line) (js "data: ")) as [E|E].
  - left. pose proof (prefix_split line E) as Hl. split; [exact Hl|].
    rewrite Hl at 1. apply line_effects_event.
  - right. split; [exact E|]. apply line_effects_other. exact E.
Qed.

Lemma outcomes_app (a b : list effect) :
  outcomes (a ++ b) = outcomes a ++ outcomes b.
Proof.
  induction a as [|e a IH]; [reflexivity|].
  destruct e as [| [m|] | | | | | | |]; simpl; rewrite IH; reflexivity.
Qed.

Lemma parsed_events_app (a b : list effect) :
  parsed_events (a ++ b) = parsed_events a ++ parsed_events b.
Proof.
  induction a as [|e a IH]; [reflexivity|].
  destruct e; simpl; rewrite IH; reflexivity.
Qed.

(** The loop body reports an outcome for a [complete] event only. *)
Lemma outcomes_event_effects (data : json) :
  outcomes (event_effects data) =
  if has_type data "complete" then [success (prop data "data")] else [].
Proof.
  destruct (has_type data "progress") eqn:Hp.
  - rewrite event_effects_progress by exact Hp.
    rewrite (has_type_excl data "progress" "complete" Hp) by discriminate.
    unfold progress_effect.
    destruct (_ && _); reflexivity.
  - destruct (has_type data "complete") eqn:Hc.
    + rewrite event_effects_complete by exact Hc. reflexivity.
    + unfold event_effects. rewrite Hp, Hc.
      destruct data; try reflexivity; destruct (has_type _ "error"); reflexivity.
Qed.

Lemma outcomes_payload_effects (payload : jsstring) :
  outcomes (payload_effects payload) =
  match JSON_parse payload with
  | inr data =>
      if has_type data "complete" then [success (prop data "data")] else []
  | inl _ => []
  end.
Proof.
  unfold payload_effects. destruct (JSON_parse payload) as [e|data].
  - reflexivity.
  - simpl. apply outcomes_event_effects.
Qed.

(* ===================================================================== *)
(** ** Outcomes of the read loop *)
(* ===================================================================== *)

Lemma parsed_events_event_effects (data : json) :
  parsed_events (event_effects data) = [].
Proof.
  unfold event_effects, progress_effect.
  destruct data; try reflexivity;
    repeat match goal with
           | |- context [if ?c then _ else _] => destruct c
           end; reflexivity.
Qed.

Lemma line_outcomes (line : jsstring) :
  outcomes (line_effects line) =
  flat_map result_of (parsed_events (line_effects line)).
Proof.
  destruct (line_cases line) as [[_ ->] | [_ ->]]; [|reflexivity].
  rewrite outcomes_payload_effects. unfold payload_effects.
  destruct (JSON_parse (skipn 6 line)) as [e|data]; [reflexivity|].
  simpl. rewrite parsed_events_event_effects. simpl.
  rewrite app_nil_r. reflexivity.
Qed.

(** Over a whole stream the loop reports one result per [complete] event,
    in order, and nothing else. *)
Lemma stream_outcomes (chunks : list (list byte)) :
  outcomes (stream_effects chunks) =
  flat_map result_of (parsed_events (stream_effects chunks)).
Proof.
  unfold stream_effects.
  induction (complete_lines (decoded chunks)) as [|l ls IH]; [reflexivity|].
  simpl. rewrite outcomes_app, parsed_events_app, flat_map_app, IH, line_outcomes.
  reflexivity.
Qed.

Lemma result_of_not_terminal (events : list json) :
  forallb (fun d => negb (terminal d)) events = true ->
  flat_map result_of events = [].
Proof.
  induction events as [|d ds IH]; [reflexivity|].
  simpl. intros H. apply andb_true_iff in H. destruct H as [Hd Hds].
  rewrite IH by exact Hds. unfold result_of, terminal in *.
  destruct (has_type d "complete"); [discriminate|reflexivity].
Qed.

Lemma no_outcome_keeps_result (es : list effect) (st : State) :
  outcomes es = [] -> histogramData (performs es st) = histogramData st.
Proof.
  revert st. induction es as [|e es IH]; intros st H; [reflexivity|].
  destruct e as [| [m|] | | | | | | |]; simpl in H; try discriminate;
    simpl; rewrite IH by exact H; reflexivity.
Qed.

Lemma no_outcome_keeps_no_error (es : list effect) (st : State) :
  outcomes es = [] -> error st = None -> error (performs es st) = None.
Proof.
  revert st. induction es as [|e es IH]; intros st H Hst; [exact Hst|].
  destruct e as [| [m|] | | | | | | |]; simpl in H; try discriminate;
    simpl; apply IH; try exact H; try exact Hst; reflexivity.
Qed.

Lemma loading_after_epilogue (es : list effect) (thrown : option jsstring)
  (st : State) :
  loading (performs (es ++ epilogue thrown) st) = false.
Proof.
  rewrite performs_app. unfold epilogue. rewrite performs_app. reflexivity.
Qed.

(* ===================================================================== *)
(** ** C1: an [error] event *)
(* ===================================================================== *)

Lemma error_event_line (payload : jsstring) (data : json) (st : State) :
  JSON_parse payload = inr data ->
  has_type data "error" = true ->
  handle_line st (js "data: " ++ payload) =
  performs [Parsed data; ConsoleWarn (Error (prop data "message"))] st.
Proof.
  intros Hp Ht. rewrite handle_event_line. unfold payload_effects.
  rewrite Hp, event_effects_error by exact Ht. reflexivity.
Qed.

(** C1, on the code: a stream that delivers the event
    [{"type":"error","message":"boom"}] and then a [complete] event, and
    ends.  The [Error] thrown for the error event is caught by the [catch]
    around the line and only passed to [console.warn]; [setError] is never
    called with a message, the [complete] record after it is still
    consumed, and the session ends with [error] null and the result
    stored. *)
Theorem C1_error_event_is_only_warned :
  session_effects
    (Response 200
       [wire "data: {'type':'error','message':'boom'}|data: {'type':'complete','data':{'x':1}}|"]
       Done) =
  prologue ++
  [Parsed error_boom; ConsoleWarn (Error (str "boom"));
   Parsed (complete_x 1);
   SetHistogramData (Some (JObject [(js "x", num 1)]));
   SetLoadingProgress null; SetRealTimeProgress None; SetTimeoutScroll] ++
  epilogue None
  /\ error
       (fetchJourneyAnalysis
          (Response 200
             [wire "data: {'type':'error','message':'boom'}|data: {'type':'complete','data':{'x':1}}|"]
             Done) initial) = None.
Proof. split; vm_compute; reflexivity. Qed.

(* ===================================================================== *)
(** ** C10: the event prefix *)
(* ===================================================================== *)

Lemma payload_effects_nonempty (payload : jsstring) :
  payload_effects payload <> [].
Proof.
  unfold payload_effects. destruct (JSON_parse payload); discriminate.
Qed.

(** C10.  A line is an event line exactly when its first six characters
    are [data: ]: then the text from index 6 on is what [JSON.parse] is
    given, and the line's effects are those of that payload (never none:
    the parse leaves either the bound value or a warning).  Any other line
    is passed over: the state is unchanged and nothing is logged. *)
Theorem C10_event_prefix (line : jsstring) (st : State) :
  (firstn 6 line = js "data: " /\
   handle_line st line = performs (payload_effects (skipn 6 line)) st /\
   line_effects line = payload_effects (skipn 6 line) /\
   line_effects line <> [])
  \/
  (firstn 6 line <> js "data: " /\
   handle_line st line = st /\
   line_effects line = []).
Proof.
  destruct (list_eq_dec Z.eq_dec (firstn 6 line) (js "data: ")) as [E|E].
  - left. pose proof (prefix_split line E) as Hl.
    assert (He : line_effects line = payload_effects (skipn 6 line)).
    { rewrite Hl at 1. apply line_effects_event. }
    repeat split.
    + exact E.
    + rewrite Hl at 1. apply handle_event_line.
    + exact He.
    + rewrite He. apply payload_effects_nonempty.
  - right. repeat split.
    + exact E.
    + apply handle_other_line. exact E.
    + apply line_effects_other. exact E.
Qed.

(** Lines that deviate from the prefix: no space after the colon, upper
    case, a leading space, a blank line. *)
Example prefix_deviations :
  line_effects (text "data:{'type':'complete','data':{'x':1}}") = [] /\
  line_effects (text "DATA: {'type':'complete','data':{'x':1}}") = [] /\
  line_effects (text " data: {'type':'complete','data':{'x':1}}") = [] /\
  line_effects (text "") = [] /\
  line_effects (text "data: {'type':'complete','data':{'x':1}}") =
    [Parsed (complete_x 1);
     SetHistogramData (Some (JObject [(js "x", num 1)]));
     SetLoadingProgress null; SetRealTimeProgress None; SetTimeoutScroll].
Proof. repeat split; vm_compute; reflexivity. Qed.

(* ===================================================================== *)
(** ** C8: [progress] events *)
(* ===================================================================== *)

Lemma progress_event_line (payload : jsstring) (data : json) (st : State) :
  JSON_parse payload = inr data ->
  has_type data "progress" = true ->
  handle_line st (js "data: " ++ payload) =
  performs [Parsed data; progress_effect data] st.
Proof.
  intros Hp Ht. rewrite handle_event_line. unfold payload_effects.
  rewrite Hp, event_effects_progress by exact Ht. reflexivity.
Qed.

(** C8, as the code has it.  A [progress] event whose [step] is
    ['processing_journeys'] and whose [total] is truthy replaces the
    numeric snapshot by the event's own current, total, percentage and
    message, whatever the snapshot was, and leaves the phase label alone.
    Every other [progress] event, in particular every one without a
    [total], only sets the phase label to its message and leaves the
    numeric snapshot alone. *)
Theorem C8_progress_dispatch (payload : jsstring) (data : json) (st : State) :
  JSON_parse payload = inr data ->
  has_type data "progress" = true ->
  (strict_eq (prop data "step") "processing_journeys"
   && truthy (prop data "total") = true ->
   realTimeProgress (handle_line st (js "data: " ++ payload)) =
     Some (mkProgress (prop data "current") (prop data "total")
                      (prop data "percentage") (prop data "message")) /\
   loadingProgress (handle_line st (js "data: " ++ payload)) =
     loadingProgress st)
  /\
  (strict_eq (prop data "step") "processing_journeys"
   && truthy (prop data "total") = false ->
   loadingProgress (handle_line st (js "data: " ++ payload)) =
     prop data "message" /\
   realTimeProgress (handle_line st (js "data: " ++ payload)) =
     realTimeProgress st)
  /\
  (prop data "total" = None ->
   loadingProgress (handle_line st (js "data: " ++ payload)) =
     prop data "message" /\
   realTimeProgress (handle_line st (js "data: " ++ payload)) =
     realTimeProgress st).
Proof.
  intros Hp Ht. rewrite (progress_event_line payload data st Hp Ht).
  unfold progress_effect.
  split; [|split]; intros H.
  - rewrite H. split; reflexivity.
  - rewrite H. split; reflexivity.
  - rewrite H, andb_false_r. split; reflexivity.
Qed.

Lemma C8_progress_dispatch_witness :
  realTimeProgress
    (handle_line initial
       (js "data: " ++ text "{'type':'progress','step':'processing_journeys','current':120,'total':500,'percentage':24.0,'message':'Processing journeys...'}")) =
  Some (mkProgress (Some (num 120)) (Some (num 500))
          (Some (JNumber (mkNumber false 240 (-1))))
          (str "Processing journeys...")) /\
  loadingProgress
    (handle_line initial
       (js "data: " ++ text "{'type':'progress','step':'processing_journeys','current':120,'total':500,'percentage':24.0,'message':'Processing journeys...'}")) =
  null.
Proof.
  apply (C8_progress_dispatch
           (text "{'type':'progress','step':'processing_journeys','current':120,'total':500,'percentage':24.0,'message':'Processing journeys...'}")
           progress_step_120_of_500 initial);
    vm_compute; reflexivity.
Defined.

(** C8 as stated fails: the first example frame of the wire format is a
    [progress] event that carries a [total] (and no [step]); the numeric
    snapshot is not replaced by it, only the phase label is set. *)
Lemma C8_counterexample :
  JSON_parse (text "{'type':'progress','current':120,'total':500,'percentage':24.0,'message':'Processing journeys...'}") =
    inr progress_120_of_500 /\
  has_type progress_120_of_500 "progress" = true /\
  prop progress_120_of_500 "total" = Some (num 500) /\
  realTimeProgress
    (handle_line initial
       (text "data: {'type':'progress','current':120,'total':500,'percentage':24.0,'message':'Processing journeys...'}")) =
    None /\
  loadingProgress
    (handle_line initial
       (text "data: {'type':'progress','current':120,'total':500,'percentage':24.0,'message':'Processing journeys...'}")) =
    str "Processing journeys...".
Proof. repeat split; vm_compute; reflexivity. Qed.

(* ===================================================================== *)
(** ** Results and failures over a stream *)
(* ===================================================================== *)

Lemma successes_app (a b : list Outcome) :
  successes (a ++ b) = successes a ++ successes b.
Proof.
  induction a as [|o a IH]; [reflexivity|].
  destruct o; simpl; rewrite IH; reflexivity.
Qed.

Lemma last_default {A} (l : list A) (x d d' : A) :
  last (x :: l) d = last (x :: l) d'.
Proof.
  revert x. induction l as [|y l IH]; intros x; [reflexivity|].
  change (last (y :: l) d = last (y :: l) d'). apply IH.
Qed.

(** The stored result is the one of the last [setHistogramData]. *)
Lemma result_performs (es : list effect) (st : State) :
  histogramData (performs es st) =
  last (successes (outcomes es)) (histogramData st).
Proof.
  revert st. induction es as [|e es IH]; intros st; [reflexivity|].
  simpl performs. rewrite IH.
  destruct e as [| [m|] | | | | v | | |]; try reflexivity.
  simpl. destruct (successes (outcomes es)); [reflexivity|].
  apply last_default.
Qed.

Lemma result_of_no_complete (events : list json) :
  no_event_of_type "complete" events = true ->
  flat_map result_of events = [].
Proof.
  induction events as [|d ds IH]; [reflexivity|].
  simpl. intros H. apply andb_true_iff in H. destruct H as [Hd Hds].
  rewrite IH by exact Hds. unfold result_of.
  destruct (has_type d "complete"); [discriminate|reflexivity].
Qed.

Lemma not_terminal_no_complete (events : list json) :
  forallb (fun d => negb (terminal d)) events = true ->
  no_event_of_type "complete" events = true.
Proof.
  induction events as [|d ds IH]; [reflexivity|].
  simpl. intros H. apply andb_true_iff in H. destruct H as [Hd Hds].
  rewrite IH by exact Hds. unfold terminal in Hd.
  destruct (has_type d "complete"); [discriminate|reflexivity].
Qed.

Lemma lines_outcomes (lines : list jsstring) :
  outcomes (flat_map line_effects lines) =
  flat_map result_of (parsed_events (flat_map line_effects lines)).
Proof.
  induction lines as [|l ls IH]; [reflexivity|].
  simpl. rewrite outcomes_app, parsed_events_app, flat_map_app, IH, line_outcomes.
  reflexivity.
Qed.

Lemma complete_event_effects (payload : jsstring) (data : json) :
  JSON_parse payload = inr data ->
  has_type data "complete" = true ->
  line_effects (js "data: " ++ payload) =
  [Parsed data; SetHistogramData (prop data "data"); SetLoadingProgress null;
   SetRealTimeProgress None; SetTimeoutScroll].
Proof.
  intros Hp Ht. rewrite line_effects_event. unfold payload_effects.
  rewrite Hp, event_effects_complete by exact Ht. reflexivity.
Qed.

Lemma outcomes_epilogue (thrown : option jsstring) :
  successes (outcomes (epilogue thrown)) = [].
Proof. destruct thrown; reflexivity. Qed.

(* ===================================================================== *)
(** ** C2: records after a [complete] event *)
(* ===================================================================== *)

(** C2, as the code has it.  Nothing latches the first result.  The
    records after a [complete] event are handled like any others: each
    has, in the session's effects, exactly the effects it has when it is
    handled before any [complete] event ([line_effects] is what the loop
    body does with the line from the component's initial state).  The
    result stored at the end is the [data] of the last [complete] event
    of the stream, whether or not another [complete] event came before
    it.  (Streams with an [error] event are left aside.) *)
Theorem C2_last_complete_wins
  (status : N) (chunks : list (list byte)) (ending : ReadEnd) (st : State)
  (pre post : list jsstring) (payload : jsstring) (data : json) :
  ok status = true ->
  complete_lines (decoded chunks) = pre ++ (js "data: " ++ payload) :: post ->
  JSON_parse payload = inr data ->
  has_type data "complete" = true ->
  no_event_of_type "complete" (parsed_events (flat_map line_effects post)) = true ->
  no_event_of_type "error" (parsed_events (stream_effects chunks)) = true ->
  histogramData (fetchJourneyAnalysis (Response status chunks ending) st) =
    prop data "data" /\
  session_effects (Response status chunks ending) =
    (prologue ++ flat_map line_effects pre) ++
    [Parsed data; SetHistogramData (prop data "data");
     SetLoadingProgress null; SetRealTimeProgress None; SetTimeoutScroll] ++
    (flat_map line_effects post ++ epilogue (thrown_by ending)) /\
  fetchJourneyAnalysis (Response status chunks ending) st =
    performs (epilogue (thrown_by ending))
      (fold_left handle_line post
         (handle_line
            (fold_left handle_line pre (performs prologue st))
            (js "data: " ++ payload))).
Proof.
  intros Hok Hlines Hp Ht Hpost _.
  assert (Hs : stream_effects chunks =
               flat_map line_effects pre ++
               line_effects (js "data: " ++ payload) ++
               flat_map line_effects post).
  { unfold stream_effects. rewrite Hlines, flat_map_app. reflexivity. }
  split; [|split].
  - rewrite fetch_stream by exact Hok. rewrite result_performs, Hs.
    rewrite (complete_event_effects payload data Hp Ht).
    rewrite !outcomes_app, !successes_app.
    rewrite (lines_outcomes post), (result_of_no_complete _ Hpost).
    rewrite outcomes_epilogue. simpl.
    rewrite !app_nil_r. apply last_last.
  - rewrite session_stream by exact Hok. rewrite Hs.
    rewrite (complete_event_effects payload data Hp Ht).
    rewrite <- !app_assoc. reflexivity.
  - rewrite fetch_stream by exact Hok. rewrite Hs.
    rewrite !performs_app, !lines_perform, handle_line_performs.
    reflexivity.
Qed.

Lemma C2_last_complete_wins_witness :
  histogramData
    (fetchJourneyAnalysis
       (Response 200
          [wire "data: {'type':'complete','data':{'x':1}}|";
           wire "data: {'type':'complete','data':{'x':2}}|data: {'type':'progress','message':'late'}|"]
          Done) initial) =
    prop (complete_x 2) "data" /\
  session_effects
    (Response 200
       [wire "data: {'type':'complete','data':{'x':1}}|";
        wire "data: {'type':'complete','data':{'x':2}}|data: {'type':'progress','message':'late'}|"]
       Done) =
    (prologue ++
     flat_map line_effects [text "data: {'type':'complete','data':{'x':1}}"]) ++
    [Parsed (complete_x 2); SetHistogramData (prop (complete_x 2) "data");
     SetLoadingProgress null; SetRealTimeProgress None; SetTimeoutScroll] ++
    ([Parsed (progress_phase "late");
      SetLoadingProgress (prop (progress_phase "late") "message")] ++
     epilogue (thrown_by Done)) /\
  fetchJourneyAnalysis
    (Response 200
       [wire "data: {'type':'complete','data':{'x':1}}|";
        wire "data: {'type':'complete','data':{'x':2}}|data: {'type':'progress','message':'late'}|"]
       Done) initial =
    performs (epilogue (thrown_by Done))
      (fold_left handle_line
         [text "data: {'type':'progress','message':'late'}"]
         (handle_line
            (fold_left handle_line
               [text "data: {'type':'complete','data':{'x':1}}"]
               (performs prologue initial))
            (js "data: " ++ text "{'type':'complete','data':{'x':2}}"))).
Proof.
  apply (C2_last_complete_wins 200
           [wire "data: {'type':'complete','data':{'x':1}}|";
            wire "data: {'type':'complete','data':{'x':2}}|data: {'type':'progress','message':'late'}|"]
           Done initial
           [text "data: {'type':'complete','data':{'x':1}}"]
           [text "data: {'type':'progress','message':'late'}"]
           (text "{'type':'complete','data':{'x':2}}")
           (complete_x 2));
    vm_compute; reflexivity.
Defined.

(** C2 as stated fails: after a first [complete] event has stored its
    result, a later [complete] event of the same stream is not ignored;
    two results are reported and the second replaces the first. *)
Lemma C2_counterexample :
  outcomes
    (session_effects
       (Response 200 [wire "data: {'type':'complete','data':{'x':1}}|"] Done)) =
    [success (Some (JObject [(js "x", num 1)]))] /\
  outcomes
    (session_effects
       (Response 200
          [wire "data: {'type':'complete','data':{'x':1}}|";
           wire "data: {'type':'complete','data':{'x':2}}|"] Done)) =
    [success (Some (JObject [(js "x", num 1)]));
     success (Some (JObject [(js "x", num 2)]))] /\
  histogramData
    (fetchJourneyAnalysis
       (Response 200
          [wire "data: {'type':'complete','data':{'x':1}}|";
           wire "data: {'type':'complete','data':{'x':2}}|"] Done) initial) =
    Some (JObject [(js "x", num 2)]) /\
  Some (JObject [(js "x", num 2)]) <> Some (JObject [(js "x", num 1)]).
Proof. repeat split; try (vm_compute; reflexivity). discriminate. Qed.

(* ===================================================================== *)
(** ** C3: a stream that ends without a terminal event *)
(* ===================================================================== *)

(** C3, as the code has it.  When the source is exhausted and no
    [complete] or [error] event was received, the session ends without an
    outcome: no failure is reported and [error] stays null, no result is
    stored, and the loading flag is cleared. *)
Theorem C3_exhausted_stream_ends_silently
  (status : N) (chunks : list (list byte)) (st : State) :
  ok status = true ->
  forallb (fun d => negb (terminal d))
          (parsed_events (stream_effects chunks)) = true ->
  outcomes (session_effects (Response status chunks Done)) = [] /\
  error (fetchJourneyAnalysis (Response status chunks Done) st) = None /\
  histogramData (fetchJourneyAnalysis (Response status chunks Done) st) =
    histogramData st /\
  loading (fetchJourneyAnalysis (Response status chunks Done) st) = false.
Proof.
  intros Hok Hev.
  assert (Hs : outcomes (stream_effects chunks) = []).
  { rewrite stream_outcomes. apply result_of_no_complete.
    apply not_terminal_no_complete. exact Hev. }
  assert (Hall : outcomes (session_effects (Response status chunks Done)) = []).
  { rewrite session_stream by exact Hok.
    rewrite !outcomes_app, Hs. reflexivity. }
  split; [exact Hall|].
  rewrite fetch_performs. split; [|split].
  - rewrite session_stream by exact Hok. rewrite performs_app.
    apply no_outcome_keeps_no_error; [|reflexivity].
    rewrite outcomes_app, Hs. reflexivity.
  - apply no_outcome_keeps_result. exact Hall.
  - rewrite session_stream by exact Hok.
    rewrite app_assoc. apply loading_after_epilogue.
Qed.

Lemma C3_exhausted_stream_ends_silently_witness :
  outcomes
    (session_effects
       (Response 200
          [wire "data: {'type':'progress','current':1,'total':2}|data: {'type':'progress','current':2,'total':2}|"]
          Done)) = [] /\
  error
    (fetchJourneyAnalysis
       (Response 200
          [wire "data: {'type':'progress','current':1,'total':2}|data: {'type':'progress','current':2,'total':2}|"]
          Done) initial) = None /\
  histogramData
    (fetchJourneyAnalysis
       (Response 200
          [wire "data: {'type':'progress','current':1,'total':2}|data: {'type':'progress','current':2,'total':2}|"]
          Done) initial) = null /\
  loading
    (fetchJourneyAnalysis
       (Response 200
          [wire "data: {'type':'progress','current':1,'total':2}|data: {'type':'progress','current':2,'total':2}|"]
          Done) initial) = false.
Proof.
  apply (C3_exhausted_stream_ends_silently 200
           [wire "data: {'type':'progress','current':1,'total':2}|data: {'type':'progress','current':2,'total':2}|"]
           initial);
    vm_compute; reflexivity.
Defined.

(** C3 as stated fails: the stream of the two [progress] records of the
    specification's example, then exhausted, settles no failure: both
    events are received, no outcome is reported and [error] is null. *)
Lemma C3_counterexample :
  List.length
    (parsed_events
       (session_effects
          (Response 200
             [wire "data: {'type':'progress','current':1,'total':2}|data: {'type':'progress','current':2,'total':2}|"]
             Done))) = 2%nat /\
  outcomes
    (session_effects
       (Response 200
          [wire "data: {'type':'progress','current':1,'total':2}|data: {'type':'progress','current':2,'total':2}|"]
          Done)) = [] /\
  error
    (fetchJourneyAnalysis
       (Response 200
          [wire "data: {'type':'progress','current':1,'total':2}|data: {'type':'progress','current':2,'total':2}|"]
          Done) initial) = None.
Proof. repeat split; vm_compute; reflexivity. Qed.

(* ===================================================================== *)
(** ** C4: chunk boundaries *)
(* ===================================================================== *)

Lemma decoded_concat (chunks : list (list byte)) :
  decoded [List.concat chunks] = decoded chunks.
Proof. unfold decoded. simpl. rewrite app_nil_r. reflexivity. Qed.

Lemma session_effects_decoded (status : N) (chunks chunks' : list (list byte))
  (ending : ReadEnd) :
  complete_lines (decoded chunks) = complete_lines (decoded chunks') ->
  session_effects (Response status chunks ending) =
  session_effects (Response status chunks' ending).
Proof.
  intros H. destruct (ok status) eqn:Hok.
  - rewrite !session_stream by exact Hok. unfold stream_effects.
    rewrite H. reflexivity.
  - unfold session_effects, fetchJourneyAnalysis, try_block.
    rewrite Hok. reflexivity.
Qed.

(** C4.  However the bytes of a stream are cut into chunks (inside a
    character, inside a JSON payload, anywhere), the events parsed are
    the same, in the same order, as when the bytes arrive in one chunk;
    so are all effects and the final state. *)
Theorem C4_chunk_boundary_invariance
  (status : N) (chunks : list (list byte)) (bytes : list byte)
  (ending : ReadEnd) (st : State) :
  List.concat chunks = bytes ->
  parsed_events (session_effects (Response status chunks ending)) =
    parsed_events (session_effects (Response status [bytes] ending)) /\
  fetchJourneyAnalysis (Response status chunks ending) st =
    fetchJourneyAnalysis (Response status [bytes] ending) st.
Proof.
  intros <-.
  assert (H : session_effects (Response status chunks ending) =
              session_effects (Response status [List.concat chunks] ending)).
  { apply session_effects_decoded. rewrite decoded_concat. reflexivity. }
  split.
  - rewrite H. reflexivity.
  - rewrite !fetch_performs, H. reflexivity.
Qed.

(** A stream cut inside a two-byte character (an e with acute accent)
    and inside the payload of the second record. *)
Lemma C4_chunk_boundary_invariance_witness :
  parsed_events
    (session_effects
       (Response 200
          [wire "data: {'type':'progress','message':'caf" ++ [xc3];
           [xa9] ++ wire "'}|data: {'typ";
           wire "e':'complete','data':{'x':1}}|"] Done)) =
    parsed_events
      (session_effects
         (Response 200
            [wire "data: {'type':'progress','message':'caf" ++ [xc3; xa9]
             ++ wire "'}|data: {'type':'complete','data':{'x':1}}|"] Done)) /\
  fetchJourneyAnalysis
    (Response 200
       [wire "data: {'type':'progress','message':'caf" ++ [xc3];
        [xa9] ++ wire "'}|data: {'typ";
        wire "e':'complete','data':{'x':1}}|"] Done) initial =
    fetchJourneyAnalysis
      (Response 200
         [wire "data: {'type':'progress','message':'caf" ++ [xc3; xa9]
          ++ wire "'}|data: {'type':'complete','data':{'x':1}}|"] Done)
      initial.
Proof.
  apply (C4_chunk_boundary_invariance 200
           [wire "data: {'type':'progress','message':'caf" ++ [xc3];
            [xa9] ++ wire "'}|data: {'typ";
            wire "e':'complete','data':{'x':1}}|"]
           (wire "data: {'type':'progress','message':'caf" ++ [xc3; xa9]
            ++ wire "'}|data: {'type':'complete','data':{'x':1}}|")
           Done initial).
  vm_compute. reflexivity.
Defined.

(** The events of that stream: the character survives the cut. *)
Example cut_stream_events :
  parsed_events
    (session_effects
       (Response 200
          [wire "data: {'type':'progress','message':'caf" ++ [xc3];
           [xa9] ++ wire "'}|data: {'typ";
           wire "e':'complete','data':{'x':1}}|"] Done)) =
  [JObject [(js "type", JString (js "progress"));
            (js "message", JString (js "caf" ++ [233]))];
   complete_x 1].
Proof. vm_compute. reflexivity. Qed.

(* ===================================================================== *)
(** ** C5: the remainder at the end of the stream *)
(* ===================================================================== *)

(** C5, as the code has it.  The loop body is run on the complete lines
    of the decoded stream and on nothing else; when the loop exits, what
    follows the last line feed is still in [buffer] and is dropped with
    it.  Two streams with the same complete lines therefore give the same
    session, whatever their remainders. *)
Theorem C5_remainder_is_dropped
  (status : N) (chunks chunks' : list (list byte)) (ending : ReadEnd)
  (st : State) :
  complete_lines (decoded chunks) = complete_lines (decoded chunks') ->
  snd (fst (fold_left iteration chunks (TextDecoder.new, [], st))) =
    remainder (decoded chunks) /\
  snd (fold_left iteration chunks (TextDecoder.new, [], st)) =
    fold_left handle_line (complete_lines (decoded chunks)) st /\
  fetchJourneyAnalysis (Response status chunks ending) st =
    fetchJourneyAnalysis (Response status chunks' ending) st.
Proof.
  intros H. rewrite loop_spec. repeat split.
  rewrite !fetch_performs.
  rewrite (session_effects_decoded status chunks chunks' ending H).
  reflexivity.
Qed.

Lemma C5_remainder_is_dropped_witness :
  snd (fst (fold_left iteration
              [wire "data: {'type':'progress','message':'a'}|data: {'type':'complete','data':{'x':1}}"]
              (TextDecoder.new, [], initial))) =
    remainder (decoded [wire "data: {'type':'progress','message':'a'}|data: {'type':'complete','data':{'x':1}}"]) /\
  snd (fold_left iteration
         [wire "data: {'type':'progress','message':'a'}|data: {'type':'complete','data':{'x':1}}"]
         (TextDecoder.new, [], initial)) =
    fold_left handle_line
      (complete_lines (decoded [wire "data: {'type':'progress','message':'a'}|data: {'type':'complete','data':{'x':1}}"]))
      initial /\
  fetchJourneyAnalysis
    (Response 200
       [wire "data: {'type':'progress','message':'a'}|data: {'type':'complete','data':{'x':1}}"]
       Done) initial =
    fetchJourneyAnalysis
      (Response 200 [wire "data: {'type':'progress','message':'a'}|"] Done)
      initial.
Proof.
  apply (C5_remainder_is_dropped 200
           [wire "data: {'type':'progress','message':'a'}|data: {'type':'complete','data':{'x':1}}"]
           [wire "data: {'type':'progress','message':'a'}|"]
           Done initial).
  vm_compute. reflexivity.
Defined.

(** C5 as stated fails: a stream whose only record, a [complete] event,
    lacks the trailing line feed.  At the end the record is the non-blank
    content of [buffer]; it was never parsed, and no result is stored. *)
Lemma C5_counterexample :
  snd (fst (fold_left iteration
              [wire "data: {'type':'complete','data':{'x':1}}"]
              (TextDecoder.new, [], initial))) =
    text "data: {'type':'complete','data':{'x':1}}" /\
  session_effects
    (Response 200 [wire "data: {'type':'complete','data':{'x':1}}"] Done) =
    prologue ++ epilogue None /\
  histogramData
    (fetchJourneyAnalysis
       (Response 200 [wire "data: {'type':'complete','data':{'x':1}}"] Done)
       initial) = null.
Proof. repeat split; vm_compute; reflexivity. Qed.

(* ===================================================================== *)
(** ** C6: bytes the decoder retains at the end of the stream *)
(* ===================================================================== *)

Lemma decoded_app_tail (chunks : list (list byte)) (tail : list byte) :
  decoded (chunks ++ [tail]) =
  decoded chunks ++
  snd (TextDecoder.decode
         (fst (TextDecoder.decode TextDecoder.new (List.concat chunks))) tail).
Proof.
  unfold decoded. rewrite concat_app. simpl. rewrite app_nil_r, decode_app.
  destruct (TextDecoder.decode TextDecoder.new (List.concat chunks)) as [d t].
  simpl. destruct (TextDecoder.decode d tail). reflexivity.
Qed.

(** C6, as the code has it.  Every call of [decode] is a streaming call
    and none follows the last chunk: bytes that the decoder only retains
    (they return no text) when the stream ends are dropped, and the
    session is the same as if they had not been sent. *)
Theorem C6_retained_bytes_are_dropped
  (status : N) (chunks : list (list byte)) (tail : list byte)
  (ending : ReadEnd) (st : State) :
  snd (TextDecoder.decode
         (fst (TextDecoder.decode TextDecoder.new (List.concat chunks)))
         tail) = [] ->
  fetchJourneyAnalysis (Response status (chunks ++ [tail]) ending) st =
  fetchJourneyAnalysis (Response status chunks ending) st.
Proof.
  intros H. rewrite !fetch_performs.
  rewrite (session_effects_decoded status (chunks ++ [tail]) chunks ending);
    [reflexivity|].
  rewrite decoded_app_tail, H, app_nil_r. reflexivity.
Qed.

(** The first two bytes of the three-byte euro sign after a record. *)
Lemma C6_retained_bytes_are_dropped_witness :
  fetchJourneyAnalysis
    (Response 200
       ([wire "data: {'type':'progress','message':'a'}|"] ++ [[xe2; x82]])
       Done) initial =
  fetchJourneyAnalysis
    (Response 200 [wire "data: {'type':'progress','message':'a'}|"] Done)
    initial.
Proof.
  apply (C6_retained_bytes_are_dropped 200
           [wire "data: {'type':'progress','message':'a'}|"] [xe2; x82]
           Done initial).
  vm_compute. reflexivity.
Defined.

(** C6 as stated fails: the stream ends on the first two bytes of a
    three-byte character.  The decoder still awaits the third byte when
    the loop exits; no failure is reported and [error] is null. *)
Lemma C6_counterexample :
  TextDecoder.bytes_needed
    (fst (fst (fold_left iteration
                 [wire "data: {'type':'progress','message':'a'}|" ++ [xe2; x82]]
                 (TextDecoder.new, [], initial)))) = 2 /\
  TextDecoder.bytes_seen
    (fst (fst (fold_left iteration
                 [wire "data: {'type':'progress','message':'a'}|" ++ [xe2; x82]]
                 (TextDecoder.new, [], initial)))) = 1 /\
  outcomes
    (session_effects
       (Response 200
          [wire "data: {'type':'progress','message':'a'}|" ++ [xe2; x82]]
          Done)) = [] /\
  error
    (fetchJourneyAnalysis
       (Response 200
          [wire "data: {'type':'progress','message':'a'}|" ++ [xe2; x82]]
          Done) initial) = None.
Proof. repeat split; vm_compute; reflexivity. Qed.

(* ===================================================================== *)
(** ** C7: a malformed line between two [progress] events *)
(* ===================================================================== *)

Lemma malformed_line_effects (payload : jsstring) (e : exn) :
  JSON_parse payload = inl e ->
  line_effects (js "data: " ++ payload) = [ConsoleWarn e].
Proof.
  intros H. rewrite line_effects_event. unfold payload_effects.
  rewrite H. reflexivity.
Qed.

Lemma progress_line_effects (payload : jsstring) (data : json) :
  JSON_parse payload = inr data ->
  has_type data "progress" = true ->
  line_effects (js "data: " ++ payload) = [Parsed data; progress_effect data].
Proof.
  intros Hp Ht. rewrite line_effects_event. unfold payload_effects.
  rewrite Hp, event_effects_progress by exact Ht. reflexivity.
Qed.

(** C7.  In a stream whose lines contain a [progress] event, later a
    [data: ] line that is not valid JSON, and later another [progress]
    event (whatever lines come before, between and after them: blank
    separators, other records), the malformed line costs one
    [console.warn] and nothing else, from any state; the setter call of
    the first event, the warning, and the setter call of the second event
    are all in the session's effects, in that order, with between them
    only the effects of the lines between; and the lines after are still
    handled. *)
Theorem C7_malformed_line_is_skipped
  (status : N) (chunks : list (list byte)) (ending : ReadEnd)
  (pre mid1 mid2 post : list jsstring) (p1 bad p2 : jsstring) (d1 d2 : json) :
  ok status = true ->
  complete_lines (decoded chunks) =
    pre ++ (js "data: " ++ p1) :: mid1 ++
    (js "data: " ++ bad) :: mid2 ++ (js "data: " ++ p2) :: post ->
  JSON_parse p1 = inr d1 -> has_type d1 "progress" = true ->
  JSON_parse bad = inl SyntaxError ->
  JSON_parse p2 = inr d2 -> has_type d2 "progress" = true ->
  session_effects (Response status chunks ending) =
    (prologue ++ flat_map line_effects pre) ++
    [Parsed d1; progress_effect d1] ++ flat_map line_effects mid1 ++
    [ConsoleWarn SyntaxError] ++ flat_map line_effects mid2 ++
    [Parsed d2; progress_effect d2] ++
    (flat_map line_effects post ++ epilogue (thrown_by ending)) /\
  (forall s, handle_line s (js "data: " ++ bad) =
             perform (ConsoleWarn SyntaxError) s).
Proof.
  intros Hok Hlines H1 Ht1 Hbad H2 Ht2. split.
  - rewrite session_stream by exact Hok.
    unfold stream_effects. rewrite Hlines.
    rewrite flat_map_app.
    change (flat_map line_effects
              ((js "data: " ++ p1) :: mid1 ++
               (js "data: " ++ bad) :: mid2 ++ (js "data: " ++ p2) :: post))
      with (line_effects (js "data: " ++ p1) ++
            flat_map line_effects
              (mid1 ++ (js "data: " ++ bad) :: mid2 ++
               (js "data: " ++ p2) :: post)).
    rewrite flat_map_app.
    change (flat_map line_effects
              ((js "data: " ++ bad) :: mid2 ++ (js "data: " ++ p2) :: post))
      with (line_effects (js "data: " ++ bad) ++
            flat_map line_effects (mid2 ++ (js "data: " ++ p2) :: post)).
    rewrite flat_map_app.
    change (flat_map line_effects ((js "data: " ++ p2) :: post))
      with (line_effects (js "data: " ++ p2) ++ flat_map line_effects post).
    rewrite (progress_line_effects p1 d1 H1 Ht1).
    rewrite (malformed_line_effects bad SyntaxError Hbad).
    rewrite (progress_line_effects p2 d2 H2 Ht2).
    rewrite <- !app_assoc. reflexivity.
  - intros s. rewrite handle_event_line. unfold payload_effects.
    rewrite Hbad. reflexivity.
Qed.

(** Records separated by blank lines, the malformed one cut between two
    chunks. *)
Lemma C7_malformed_line_is_skipped_witness :
  session_effects
    (Response 200
       [wire "data: {'type':'progress','message':'one'}||data: {'type':'progr";
        wire "||data: {'type':'progress','message':'two'}||"] Done) =
    (prologue ++ flat_map line_effects []) ++
    [Parsed (progress_phase "one"); progress_effect (progress_phase "one")] ++
    flat_map line_effects [[]] ++
    [ConsoleWarn SyntaxError] ++ flat_map line_effects [[]] ++
    [Parsed (progress_phase "two"); progress_effect (progress_phase "two")] ++
    (flat_map line_effects [[]] ++ epilogue (thrown_by Done)) /\
  (forall s, handle_line s (js "data: " ++ text "{'type':'progr") =
             perform (ConsoleWarn SyntaxError) s).
Proof.
  apply (C7_malformed_line_is_skipped 200
           [wire "data: {'type':'progress','message':'one'}||data: {'type':'progr";
            wire "||data: {'type':'progress','message':'two'}||"]
           Done [] [[]] [[]] [[]]
           (text "{'type':'progress','message':'one'}")
           (text "{'type':'progr")
           (text "{'type':'progress','message':'two'}")
           (progress_phase "one") (progress_phase "two"));
    vm_compute; reflexivity.
Defined.

(* ===================================================================== *)
(** ** C9: a stream interrupted before its end *)
(* ===================================================================== *)

Lemma outcomes_prologue : outcomes prologue = [].
Proof. reflexivity. Qed.

Lemma cancelled_not_reported (es : list effect) :
  ~ In cancelled (outcomes es).
Proof.
  induction es as [|e es IH]; [intros []|].
  destruct e as [| [m|] | | | | | | |]; simpl; try exact IH;
    intros [H|H]; try discriminate H; exact (IH H).
Qed.

(** C9, as the code has it.  The function takes no abort signal and
    returns no handle, and nothing it reports is a cancellation.  A stream
    interrupted mid-way reaches it as a rejected read: the session then
    reports, once and last, the failure [Failed to fetch data: ] followed
    by the reason, after the results of the [complete] events already
    received; [error] holds that message at the end.  (Streams with an
    [error] event are left aside.) *)
Theorem C9_interrupted_stream_fails
  (status : N) (chunks : list (list byte)) (reason : jsstring) (st : State) :
  ok status = true ->
  no_event_of_type "error" (parsed_events (stream_effects chunks)) = true ->
  outcomes (session_effects (Response status chunks (Rejected reason))) =
    flat_map result_of (parsed_events (stream_effects chunks)) ++
    [failure (js "Failed to fetch data: " ++ reason)] /\
  ~ In cancelled
      (outcomes (session_effects (Response status chunks (Rejected reason)))) /\
  error (fetchJourneyAnalysis (Response status chunks (Rejected reason)) st) =
    Some (js "Failed to fetch data: " ++ reason).
Proof.
  intros Hok _. split; [|split].
  - rewrite session_stream by exact Hok.
    rewrite !outcomes_app, outcomes_prologue, stream_outcomes. reflexivity.
  - apply cancelled_not_reported.
  - rewrite fetch_stream by exact Hok.
    rewrite app_assoc, performs_app. reflexivity.
Qed.

Lemma C9_interrupted_stream_fails_witness :
  outcomes
    (session_effects
       (Response 200 [wire "data: {'type':'progress','message':'one'}|"]
          (Rejected (js "The user aborted a request.")))) =
    flat_map result_of
      (parsed_events
         (stream_effects [wire "data: {'type':'progress','message':'one'}|"])) ++
    [failure (js "Failed to fetch data: " ++ js "The user aborted a request.")] /\
  ~ In cancelled
      (outcomes
         (session_effects
            (Response 200 [wire "data: {'type':'progress','message':'one'}|"]
               (Rejected (js "The user aborted a request."))))) /\
  error
    (fetchJourneyAnalysis
       (Response 200 [wire "data: {'type':'progress','message':'one'}|"]
          (Rejected (js "The user aborted a request."))) initial) =
    Some (js "Failed to fetch data: " ++ js "The user aborted a request.").
Proof.
  apply (C9_interrupted_stream_fails 200
           [wire "data: {'type':'progress','message':'one'}|"]
           (js "The user aborted a request.") initial);
    vm_compute; reflexivity.
Defined.

(** C9 as stated fails: a session interrupted after its first record
    reports exactly one outcome, and it is a failure, not a
    cancellation. *)
Lemma C9_counterexample :
  outcomes
    (session_effects
       (Response 200 [wire "data: {'type':'progress','message':'one'}|"]
          (Rejected (js "The user aborted a request.")))) =
    [failure (js "Failed to fetch data: The user aborted a request.")] /\
  outcomes
    (session_effects
       (Response 200 [wire "data: {'type':'progress','message':'one'}|"]
          (Rejected (js "The user aborted a request.")))) <> [cancelled].
Proof. split; [vm_compute; reflexivity|]. vm_compute. discriminate. Qed.

(* ===================================================================== *)
(** ** The line buffer *)
(* ===================================================================== *)

Lemma split_no_LF (s : jsstring) : Forall (fun l => ~ In LF l) (split s).
Proof.
  induction s as [|c r IH]; simpl.
  - constructor; [intros []|constructor].
  - destruct (c =? LF) eqn:E.
    + constructor; [intros []|exact IH].
    + pose proof (split_nonempty r) as Hne.
      destruct (split r) as [|l ls]; [contradiction|].
      inversion IH as [|? ? Hl Hls]; subst.
      constructor; [|exact Hls].
      intros [H|H]; [|exact (Hl H)].
      subst c. discriminate E.
Qed.

Lemma remainder_no_LF (s : jsstring) : ~ In LF (remainder s).
Proof.
  unfold remainder. pose proof (split_no_LF s) as H.
  pose proof (split_nonempty s) as Hne.
  destruct (split s) as [|x l] using rev_ind; [contradiction|].
  rewrite last_last. apply Forall_app in H. destruct H as [_ H].
  inversion H; assumption.
Qed.

(** The complete lines, each with its line feed, and then the remainder
    are the text. *)
Lemma split_join (s : jsstring) :
  flat_map (fun l => l ++ [LF]) (complete_lines s) ++ remainder s = s.
Proof.
  unfold complete_lines, remainder.
  induction s as [|c r IH]; [reflexivity|].
  pose proof (split_nonempty r) as Hne.
  destruct (c =? LF) eqn:E.
  - apply Z.eqb_eq in E. subst c. rewrite split_cons_LF.
    destruct (split r) as [|l ls] eqn:Er; [contradiction|].
    change (removelast ([] :: l :: ls)) with ([] :: removelast (l :: ls)).
    change (last ([] :: l :: ls) []) with (last (l :: ls) []).
    simpl flat_map. simpl app. f_equal. exact IH.
  - rewrite split_cons_other by exact E.
    destruct (split r) as [|l ls] eqn:Er; [contradiction|].
    simpl hd. simpl tl. destruct ls as [|l' ls'].
    + simpl in *. f_equal. exact IH.
    + change (removelast ((c :: l) :: l' :: ls'))
        with ((c :: l) :: removelast (l' :: ls')).
      change (last ((c :: l) :: l' :: ls') [])
        with (last (l' :: ls') []).
      change (removelast (l :: l' :: ls'))
        with (l :: removelast (l' :: ls')) in IH.
      change (last (l :: l' :: ls') []) with (last (l' :: ls') []) in IH.
      simpl flat_map in *. simpl app in *. f_equal. exact IH.
Qed.

(** X1.  Whatever chunks have been read, [buffer] holds no line feed when
    an iteration ends: every complete line has been taken out of it. *)
Theorem buffer_never_holds_a_line_feed
  (chunks : list (list byte)) (st : State) :
  ~ In LF (snd (fst (fold_left iteration chunks (TextDecoder.new, [], st)))).
Proof. rewrite loop_spec. simpl. apply remainder_no_LF. Qed.

(** X2.  The lines the loop body was run on, each followed by a line
    feed, and then the content of [buffer], are exactly the text decoded
    so far: the framing loses, repeats and reorders nothing, and no line
    handled contains a line feed. *)
Theorem framing_loses_nothing (chunks : list (list byte)) (st : State) :
  exists lines,
    snd (fold_left iteration chunks (TextDecoder.new, [], st)) =
      fold_left handle_line lines st /\
    flat_map (fun l => l ++ [LF]) lines ++
      snd (fst (fold_left iteration chunks (TextDecoder.new, [], st))) =
      decoded chunks /\
    Forall (fun l => ~ In LF l) lines.
Proof.
  exists (complete_lines (decoded chunks)). rewrite loop_spec. simpl.
  split; [reflexivity|]. split; [apply split_join|].
  unfold complete_lines. pose proof (split_no_LF (decoded chunks)) as H.
  pose proof (split_nonempty (decoded chunks)) as Hne.
  destruct (split (decoded chunks)) as [|x l] using rev_ind; [contradiction|].
  rewrite removelast_last. apply Forall_app in H. apply H.
Qed.

(** X3.  A chunk of no bytes changes nothing: after any chunks, one more
    iteration on an empty chunk leaves the decoder, the buffer and the
    component's state as they were. *)
Theorem empty_chunk_is_a_no_op (chunks : list (list byte)) (st : State) :
  iteration (fold_left iteration chunks (TextDecoder.new, [], st)) [] =
  fold_left iteration chunks (TextDecoder.new, [], st).
Proof.
  change (iteration (fold_left iteration chunks (TextDecoder.new, [], st)) [])
    with (fold_left iteration [[]]
            (fold_left iteration chunks (TextDecoder.new, [], st))).
  rewrite <- fold_left_app, !loop_concat, concat_app. simpl.
  rewrite app_nil_r. reflexivity.
Qed.

(* ===================================================================== *)
(** ** What a call leaves behind *)
(* ===================================================================== *)

Lemma event_effects_loop (data : json) :
  forallb loop_effect (event_effects data) = true.
Proof.
  unfold event_effects, progress_effect.
  destruct data; try reflexivity;
    repeat match goal with
           | |- context [if ?c then _ else _] => destruct c
           end; reflexivity.
Qed.

Lemma line_effects_loop (line : jsstring) :
  forallb loop_effect (line_effects line) = true.
Proof.
  destruct (line_cases line) as [[_ ->] | [_ ->]]; [|reflexivity].
  unfold payload_effects. destruct (JSON_parse (skipn 6 line)); [reflexivity|].
  simpl. apply event_effects_loop.
Qed.

Lemma stream_effects_loop (chunks : list (list byte)) :
  forallb loop_effect (stream_effects chunks) = true.
Proof.
  unfold stream_effects.
  induction (complete_lines (decoded chunks)) as [|l ls IH]; [reflexivity|].
  simpl. rewrite forallb_app, line_effects_loop, IH. reflexivity.
Qed.

(** The loop body writes neither [loading], nor [error], nor
    [aiAnalysis]. *)
Lemma loop_effects_keep (es : list effect) (st : State) :
  forallb loop_effect es = true ->
  loading (performs es st) = loading st /\
  error (performs es st) = error st /\
  aiAnalysis (performs es st) = aiAnalysis st.
Proof.
  revert st. induction es as [|e es IH]; intros st H; [repeat split|].
  simpl in H. apply andb_true_iff in H. destruct H as [He Hes].
  simpl performs. destruct (IH (perform e st) Hes) as (-> & -> & ->).
  destruct e; try discriminate He; repeat split.
Qed.

(** Every call is the prologue, then effects of the loop body, then the
    [catch] and [finally] blocks. *)
Lemma session_shape (net : Network) :
  exists middle thrown,
    session_effects net = prologue ++ middle ++ epilogue thrown /\
    forallb loop_effect middle = true.
Proof.
  destruct net as [m | status chunks ending].
  - exists [], (Some m). split; reflexivity.
  - destruct (ok status) eqn:Hok.
    + exists (stream_effects chunks), (thrown_by ending).
      split; [apply session_stream; exact Hok|apply stream_effects_loop].
    + exists [], (Some (js "HTTP error! status: " ++ decimal status)).
      split; [|reflexivity].
      unfold session_effects, fetchJourneyAnalysis, try_block.
      rewrite Hok. reflexivity.
Qed.

(** X4.  However the request goes (rejected fetch, any status, any body,
    a read that fails or not) and whatever the state was, when
    [fetchJourneyAnalysis] returns the loading flag is off, the phase
    label and the numeric snapshot are null, the AI analysis is null, and
    the progress block is not rendered. *)
Theorem indicators_cleared_after_every_call (net : Network) (st : State) :
  loading (fetchJourneyAnalysis net st) = false /\
  loadingProgress (fetchJourneyAnalysis net st) = null /\
  realTimeProgress (fetchJourneyAnalysis net st) = None /\
  aiAnalysis (fetchJourneyAnalysis net st) = null /\
  Render.progress_shown (fetchJourneyAnalysis net st) = false.
Proof.
  rewrite fetch_performs.
  destruct (session_shape net) as (middle & thrown & -> & Hm).
  assert (H3 : forall s,
             loading (performs (epilogue thrown) s) = false /\
             loadingProgress (performs (epilogue thrown) s) = null /\
             realTimeProgress (performs (epilogue thrown) s) = None /\
             aiAnalysis (performs (epilogue thrown) s) = aiAnalysis s).
  { intros s. destruct thrown; repeat split. }
  rewrite !performs_app.
  destruct (H3 (performs middle (performs prologue st))) as (Hl & Hp & Hr & Ha).
  unfold Render.progress_shown. rewrite Hl, Hp, Hr, Ha.
  destruct (loop_effects_keep middle (performs prologue st) Hm) as (_ & _ & ->).
  repeat split.
Qed.

(** X5.  A response whose status is not in 200..299 is not read: whatever
    its body, no record is parsed, the result stored before the call is
    kept, and [error] is [Failed to fetch data: HTTP error! status: ]
    followed by the status in decimal. *)
Theorem http_error_keeps_result
  (status : N) (chunks : list (list byte)) (ending : ReadEnd) (st : State) :
  ok status = false ->
  parsed_events (session_effects (Response status chunks ending)) = [] /\
  histogramData (fetchJourneyAnalysis (Response status chunks ending) st) =
    histogramData st /\
  error (fetchJourneyAnalysis (Response status chunks ending) st) =
    Some (js "Failed to fetch data: HTTP error! status: " ++ decimal status).
Proof.
  intros Hok.
  assert (H : session_effects (Response status chunks ending) =
              prologue ++
              epilogue (Some (js "HTTP error! status: " ++ decimal status))).
  { unfold session_effects, fetchJourneyAnalysis, try_block.
    rewrite Hok. reflexivity. }
  rewrite fetch_performs, H. repeat split.
Qed.

Lemma http_error_keeps_result_witness :
  parsed_events
    (session_effects
       (Response 503 [wire "data: {'type':'complete','data':{'x':1}}|"] Done)) =
    [] /\
  histogramData
    (fetchJourneyAnalysis
       (Response 503 [wire "data: {'type':'complete','data':{'x':1}}|"] Done)
       initial) = histogramData initial /\
  error
    (fetchJourneyAnalysis
       (Response 503 [wire "data: {'type':'complete','data':{'x':1}}|"] Done)
       initial) =
    Some (js "Failed to fetch data: HTTP error! status: " ++ decimal 503).
Proof.
  apply (http_error_keeps_result 503
           [wire "data: {'type':'complete','data':{'x':1}}|"] Done initial).
  reflexivity.
Defined.

(** X6.  An event line whose payload parses to something that is not a
    [progress], [complete] or [error] event (an object of another type or
    without [type], an array, a number, a string, a boolean, [null])
    changes none of the component's state; only [null] leaves a warning,
    for the failed read of its [type]. *)
Theorem other_events_change_nothing
  (payload : jsstring) (data : json) (st : State) :
  JSON_parse payload = inr data ->
  has_type data "progress" = false ->
  has_type data "complete" = false ->
  has_type data "error" = false ->
  line_effects (js "data: " ++ payload) =
    Parsed data ::
    match data with
    | JNull => [ConsoleWarn TypeError]
    | _ => []
    end /\
  histogramData (handle_line st (js "data: " ++ payload)) = histogramData st /\
  loading (handle_line st (js "data: " ++ payload)) = loading st /\
  error (handle_line st (js "data: " ++ payload)) = error st /\
  aiAnalysis (handle_line st (js "data: " ++ payload)) = aiAnalysis st /\
  loadingProgress (handle_line st (js "data: " ++ payload)) =
    loadingProgress st /\
  realTimeProgress (handle_line st (js "data: " ++ payload)) =
    realTimeProgress st.
Proof.
  intros Hp H1 H2 H3.
  assert (He : event_effects data =
               match data with JNull => [ConsoleWarn TypeError] | _ => [] end).
  { unfold event_effects. rewrite H1, H2, H3. destruct data; reflexivity. }
  rewrite handle_event_line, line_effects_event.
  unfold payload_effects. rewrite Hp, He.
  destruct data; repeat split.
Qed.

Lemma other_events_change_nothing_witness :
  line_effects (js "data: " ++ text "{'type':'heartbeat','n':[1,2]}") =
    [Parsed (JObject [(js "type", JString (js "heartbeat"));
                      (js "n", JArray [num 1; num 2])])] /\
  histogramData
    (handle_line initial (js "data: " ++ text "{'type':'heartbeat','n':[1,2]}")) =
    histogramData initial /\
  loading
    (handle_line initial (js "data: " ++ text "{'type':'heartbeat','n':[1,2]}")) =
    loading initial /\
  error
    (handle_line initial (js "data: " ++ text "{'type':'heartbeat','n':[1,2]}")) =
    error initial /\
  aiAnalysis
    (handle_line initial (js "data: " ++ text "{'type':'heartbeat','n':[1,2]}")) =
    aiAnalysis initial /\
  loadingProgress
    (handle_line initial (js "data: " ++ text "{'type':'heartbeat','n':[1,2]}")) =
    loadingProgress initial /\
  realTimeProgress
    (handle_line initial (js "data: " ++ text "{'type':'heartbeat','n':[1,2]}")) =
    realTimeProgress initial.
Proof.
  apply (other_events_change_nothing
           (text "{'type':'heartbeat','n':[1,2]}")
           (JObject [(js "type", JString (js "heartbeat"));
                     (js "n", JArray [num 1; num 2])])
           initial);
    vm_compute; reflexivity.
Defined.

(* ===================================================================== *)
(** ** The numeric snapshot across lines *)
(* ===================================================================== *)

Lemma line_event_line (line : jsstring) (data : json) :
  line_event line = Some data ->
  line = js "data: " ++ skipn 6 line /\ JSON_parse (skipn 6 line) = inr data.
Proof.
  unfold line_event. destruct (startsWith line (js "data: ")) eqn:E;
    [|discriminate].
  apply startsWith_prefix in E. apply prefix_split in E.
  unfold substring. destruct (JSON_parse (skipn 6 line)); [discriminate|].
  intros H. injection H as ->. split; [exact E|reflexivity].
Qed.

Lemma event_line_event (payload : jsstring) :
  line_event (js "data: " ++ payload) =
  match JSON_parse payload with
  | inr data => Some data
  | inl _ => None
  end.
Proof. reflexivity. Qed.

Lemma other_line_keeps_snapshot (line : jsstring) (st : State) :
  writes_snapshot line = false ->
  realTimeProgress (handle_line st line) = realTimeProgress st.
Proof.
  intros H.
  destruct (list_eq_dec Z.eq_dec (firstn 6 line) (js "data: ")) as [E|E].
  - apply prefix_split in E. unfold writes_snapshot in H.
    rewrite E in H |- *. rewrite event_line_event in H.
    rewrite handle_event_line. unfold payload_effects.
    destruct (JSON_parse (skipn 6 line)) as [e|data]; [reflexivity|].
    apply orb_false_iff in H. destruct H as [Hp Hc].
    unfold event_effects, progress_effect. rewrite Hc.
    unfold counting_event in Hp.
    destruct (has_type data "progress").
    + simpl in Hp. rewrite Hp. destruct data; reflexivity.
    + destruct (has_type data "error"); destruct data; reflexivity.
  - rewrite handle_other_line by exact E. reflexivity.
Qed.

(** X7.  Once a [progress] event with [step] ['processing_journeys'] and a
    truthy [total] has set the numeric snapshot, the snapshot stays that
    event's current, total, percentage and message through any number of
    following lines that carry neither such an event nor a [complete]
    event: [progress] events that only set the phase label, blank and
    other lines without the prefix, malformed lines, and events of any
    other type leave it as it is. *)
Theorem snapshot_survives_other_lines
  (payload : jsstring) (data : json) (others : list jsstring) (st : State) :
  JSON_parse payload = inr data ->
  has_type data "progress" = true ->
  counting_event data = true ->
  forallb (fun l => negb (writes_snapshot l)) others = true ->
  realTimeProgress
    (fold_left handle_line ((js "data: " ++ payload) :: others) st) =
  Some (mkProgress (prop data "current") (prop data "total")
          (prop data "percentage") (prop data "message")).
Proof.
  intros Hp Ht Hc Hl.
  change (fold_left handle_line ((js "data: " ++ payload) :: others) st)
    with (fold_left handle_line others
            (handle_line st (js "data: " ++ payload))).
  assert (H : forall s,
             realTimeProgress (fold_left handle_line others s) =
             realTimeProgress s).
  { clear - Hl. induction others as [|l ls IH]; intros s; [reflexivity|].
    simpl in Hl. apply andb_true_iff in Hl. destruct Hl as [H1 H2].
    simpl. rewrite (IH H2). apply other_line_keeps_snapshot.
    apply negb_true_iff. exact H1. }
  rewrite H.
  rewrite (progress_event_line payload data st Hp Ht).
  unfold progress_effect. unfold counting_event in Hc. rewrite Hc.
  reflexivity.
Qed.

(** A counting event followed by a blank line, a phase label, a comment
    line, a line cut short and an event of another type. *)
Lemma snapshot_survives_other_lines_witness :
  realTimeProgress
    (fold_left handle_line
       ((js "data: " ++ text "{'type':'progress','step':'processing_journeys','current':120,'total':500,'percentage':24.0,'message':'Processing journeys...'}")
        :: [text "";
            text "data: {'type':'progress','message':'Finalizing...'}";
            text ": keep-alive";
            text "data: {'type':'progr";
            text "data: {'type':'heartbeat'}"])
       initial) =
  Some (mkProgress (prop progress_step_120_of_500 "current")
          (prop progress_step_120_of_500 "total")
          (prop progress_step_120_of_500 "percentage")
          (prop progress_step_120_of_500 "message")).
Proof.
  apply (snapshot_survives_other_lines
           (text "{'type':'progress','step':'processing_journeys','current':120,'total':500,'percentage':24.0,'message':'Processing journeys...'}")
           progress_step_120_of_500
           [text "";
            text "data: {'type':'progress','message':'Finalizing...'}";
            text ": keep-alive";
            text "data: {'type':'progr";
            text "data: {'type':'heartbeat'}"]
           initial);
    vm_compute; reflexivity.
Defined.

(* ===================================================================== *)
(** ** The form *)
(* ===================================================================== *)

(** X8.  A station code set by typing is three capital letters A..Z,
    whatever was typed; and typing such a code sets it as it is. *)
Theorem typed_code_is_three_capitals (value code : jsstring) :
  Form.onChange_code value = Some code ->
  List.length code = 3%nat /\
  Forall (fun c => 65 <= c <= 90) code /\
  Form.onChange_code code = Some code.
Proof.
  unfold Form.onChange_code.
  destruct value as [|a [|b [|c [|d value]]]]; try discriminate.
  simpl. unfold Form.is_letter.
  destruct (_ && _) eqn:E; [|discriminate].
  intros H. injection H as <-.
  assert (U : forall x,
             ((65 <=? x) && (x <=? 90)) || ((97 <=? x) && (x <=? 122)) = true ->
             65 <= (if (97 <=? x) && (x <=? 122) then x - 32 else x) <= 90).
  { intros x Hx. destruct ((97 <=? x) && (x <=? 122)) eqn:Ex; lia. }
  apply andb_true_iff in E. destruct E as [E Ec].
  apply andb_true_iff in E. destruct E as [Ea Eb].
  apply U in Ea. apply U in Eb. apply U in Ec.
  split; [reflexivity|].
  split;
    [constructor; [exact Ea|constructor; [exact Eb|constructor;
       [exact Ec|constructor]]]|].
  simpl.
  set (a' := if (97 <=? a) && (a <=? 122) then a - 32 else a) in *.
  set (b' := if (97 <=? b) && (b <=? 122) then b - 32 else b) in *.
  set (c' := if (97 <=? c) && (c <=? 122) then c - 32 else c) in *.
  assert (V : forall x, 65 <= x <= 90 ->
             ((65 <=? x) && (x <=? 90)) || ((97 <=? x) && (x <=? 122)) = true /\
             (97 <=? x) && (x <=? 122) = false).
  { intros x Hx. split; lia. }
  unfold Form.is_letter.
  destruct (V a' Ea) as [-> ->]. destruct (V b' Eb) as [-> ->].
  destruct (V c' Ec) as [-> ->]. reflexivity.
Qed.

Lemma typed_code_is_three_capitals_witness :
  List.length (js "EUS") = 3%nat /\
  Forall (fun c => 65 <= c <= 90) (js "EUS") /\
  Form.onChange_code (js "EUS") = Some (js "EUS").
Proof.
  apply (typed_code_is_three_capitals (js "eUs") (js "EUS")).
  reflexivity.
Defined.

Lemma replace_colon_app (a b : jsstring) :
  ~ In 58 a -> Form.replace_colon (a ++ 58 :: b) = a ++ b.
Proof.
  induction a as [|c a IH]; intros H; [reflexivity|].
  simpl. destruct (c =? 58) eqn:E.
  - apply Z.eqb_eq in E. exfalso. apply H. left. exact E.
  - f_equal. apply IH. intros Hin. apply H. right. exact Hin.
Qed.

(** X9.  The time fields round-trip.  A stored time with no colon in its
    first two characters is shown with a colon after them, and the change
    handler gives the stored time back; a field value with its first colon
    at index 2 (as in [07:00]) is stored without it and shown again as it
    was. *)
Theorem time_field_round_trip (time value : jsstring) :
  ~ In 58 (firstn 2 time) ->
  ~ In 58 (firstn 2 value) ->
  nth_error value 2 = Some 58 ->
  Form.onChange_time (Form.time_value time) = time /\
  Form.time_value (Form.onChange_time value) = value.
Proof.
  intros Ht Hv H2. unfold Form.onChange_time, Form.time_value. split.
  - change (firstn 2 time ++ [58] ++ skipn 2 time)
      with (firstn 2 time ++ 58 :: skipn 2 time).
    rewrite replace_colon_app by exact Ht. exact (firstn_skipn 2 time).
  - destruct value as [|a [|b [|c r]]]; try discriminate.
    simpl in H2. injection H2 as ->.
    change (a :: b :: 58 :: r) with ([a; b] ++ 58 :: r).
    rewrite replace_colon_app by exact Hv. reflexivity.
Qed.

Lemma time_field_round_trip_witness :
  Form.onChange_time (Form.time_value (js "0700")) = js "0700" /\
  Form.time_value (Form.onChange_time (js "19:30")) = js "19:30".
Proof.
  apply (time_field_round_trip (js "0700") (js "19:30")).
  - vm_compute. intros [H|[H|[]]]; discriminate H.
  - vm_compute. intros [H|[H|[]]]; discriminate H.
  - reflexivity.
Defined.

Lemma push_years_spec (fuel : nat) (year currentYear : Z) (years : list Z) :
  Z.of_nat fuel = currentYear - year + 1 ->
  Form.push_years fuel year currentYear years =
  years ++ List.map (fun i => year + Z.of_nat i) (seq 0 fuel).
Proof.
  revert year years. induction fuel as [|f IH]; intros year years H; simpl.
  - rewrite app_nil_r. reflexivity.
  - replace (year <=? currentYear) with true by (symmetry; apply Z.leb_le; lia).
    rewrite IH by lia. rewrite <- app_assoc. simpl. f_equal.
    rewrite Z.add_0_r. f_equal.
    rewrite <- seq_shift, map_map. apply map_ext. intros i. lia.
Qed.

Lemma generateYearOptions_spec (currentYear : Z) :
  Form.generateYearOptions currentYear =
  List.map (fun i => 2016 + Z.of_nat i) (seq 0 (Z.to_nat (currentYear - 2015))).
Proof.
  unfold Form.generateYearOptions.
  destruct (Z.le_gt_cases 2016 currentYear) as [H|H].
  - rewrite push_years_spec by lia. reflexivity.
  - replace (Z.to_nat (currentYear - 2015)) with 0%nat by lia. reflexivity.
Qed.

(** X10.  The year options are exactly the years from 2016 to the year of
    the clock, in ascending order: the option at index [i] is [2016 + i],
    and there is none when the clock is before 2016. *)
Theorem year_options_are_2016_to_now (currentYear : Z) :
  (forall y, In y (Form.generateYearOptions currentYear) <->
             2016 <= y <= currentYear) /\
  List.length (Form.generateYearOptions currentYear) =
    Z.to_nat (currentYear - 2015) /\
  (forall i, (i < List.length (Form.generateYearOptions currentYear))%nat ->
             nth i (Form.generateYearOptions currentYear) 0 =
             2016 + Z.of_nat i).
Proof.
  rewrite generateYearOptions_spec. split; [|split].
  - intros y. rewrite in_map_iff. split.
    + intros (i & <- & Hi). apply in_seq in Hi. lia.
    + intros Hy. exists (Z.to_nat (y - 2016)). split; [lia|].
      apply in_seq. lia.
  - rewrite length_map, length_seq. reflexivity.
  - intros i Hi. rewrite length_map, length_seq in Hi.
    rewrite (nth_indep _ 0 (2016 + Z.of_nat 0))
      by (rewrite length_map, length_seq; exact Hi).
    rewrite (map_nth (fun i => 2016 + Z.of_nat i)).
    rewrite seq_nth by exact Hi. reflexivity.
Qed.

(* ===================================================================== *)
(** ** Station labels from the route *)
(* ===================================================================== *)

Lemma spaces_all (a t : jsstring) :
  forallb Route.is_space a = true ->
  Route.spaces (a ++ t) = (List.length a + Route.spaces t)%nat.
Proof.
  induction a as [|c a IH]; intros H; [reflexivity|].
  simpl in H. apply andb_true_iff in H. destruct H as [Hc Ha].
  simpl. rewrite Hc, IH by exact Ha. reflexivity.
Qed.

Lemma spaces_all_length (a : jsstring) :
  forallb Route.is_space a = true -> Route.spaces a = List.length a.
Proof.
  intros H. rewrite <- (app_nil_r a) at 1. rewrite spaces_all by exact H.
  simpl. lia.
Qed.

(** Past the leading spaces of a text that is not all spaces comes one of
    its characters. *)
Lemma spaces_not_all (a t : jsstring) :
  forallb Route.is_space a = false ->
  exists c r, skipn (Route.spaces (a ++ t)) (a ++ t) = c :: r /\ In c a.
Proof.
  induction a as [|c a IH]; intros H; [discriminate|].
  simpl in H. simpl. destruct (Route.is_space c) eqn:Hc.
  - simpl in H. destruct (IH H) as (c' & r & E & Hin).
    exists c', r. split; [exact E|right; exact Hin].
  - exists c, (a ++ t). split; [reflexivity|left; reflexivity].
Qed.

Lemma skipn_spaces_In (s : jsstring) (c : Z) (r : jsstring) :
  skipn (Route.spaces s) s = c :: r -> In c s.
Proof.
  induction s as [|x s IH]; simpl; [discriminate|].
  destruct (Route.is_space x).
  - simpl. intros H. right. apply IH. exact H.
  - simpl. intros H. injection H as -> _. left. reflexivity.
Qed.

Lemma trimStart_In (s : jsstring) (c : Z) :
  In c (Route.trimStart s) -> In c s.
Proof.
  unfold Route.trimStart. induction s as [|x s IH]; simpl; [auto|].
  destruct (Route.is_space x); simpl; [|auto].
  intros H. right. apply IH. exact H.
Qed.

Lemma match_at_absent (x : Z) (s : jsstring) :
  ~ In x s -> Route.match_at (Route.Around x) s = None.
Proof.
  intros H. unfold Route.match_at.
  destruct (skipn (Route.spaces s) s) as [|c r] eqn:E; [reflexivity|].
  apply skipn_spaces_In in E.
  destruct (c =? x) eqn:Ec; [|reflexivity].
  apply Z.eqb_eq in Ec. subst c. contradiction.
Qed.

(** A text without the character is one piece. *)
Lemma split_go_absent (x : Z) (s piece : jsstring) :
  ~ In x s ->
  Route.split_go (Route.Around x) piece 0 s = [rev piece ++ s].
Proof.
  revert piece. induction s as [|c s IH]; intros piece H.
  - simpl. rewrite app_nil_r. reflexivity.
  - cbn [Route.split_go]. rewrite match_at_absent by exact H.
    rewrite IH by (intros Hin; apply H; right; exact Hin).
    simpl. rewrite <- app_assoc. reflexivity.
Qed.

Lemma split_go_skip (sep : Route.separator) (piece u v : jsstring) :
  Route.split_go sep piece (List.length u) (u ++ v) =
  Route.split_go sep piece 0 v.
Proof.
  induction u as [|c u IH]; [reflexivity|].
  simpl. exact IH.
Qed.

Lemma split_go_spaces (sep : Route.separator) (piece u b : jsstring) :
  Route.split_go sep piece (List.length u + Route.spaces b) (u ++ b) =
  Route.split_go sep piece 0 (Route.trimStart b).
Proof.
  induction u as [|c u IH]; [|exact IH].
  simpl. induction b as [|c b IH]; [reflexivity|].
  unfold Route.trimStart. simpl. destruct (Route.is_space c); [|reflexivity].
  exact IH.
Qed.

(** A text with the character once: the piece before it, without its
    trailing spaces, and the scan goes on after the spaces that follow
    it. *)
Lemma split_go_one (x : Z) (a b piece : jsstring) :
  Route.is_space x = false ->
  ~ In x a ->
  Route.split_go (Route.Around x) piece 0 (a ++ x :: b) =
  (rev piece ++ Route.trimEnd a) ::
  Route.split_go (Route.Around x) [] 0 (Route.trimStart b).
Proof.
  intros Hx. revert piece. induction a as [|c a IH]; intros piece Ha.
  - simpl app. cbn [Route.split_go].
    assert (Hm : Route.match_at (Route.Around x) (x :: b) =
                 Some (0 + 1 + Route.spaces b)%nat).
    { unfold Route.match_at. cbn [Route.spaces]. rewrite Hx.
      cbv zeta. cbn [skipn]. rewrite Z.eqb_refl. reflexivity. }
    rewrite Hm. simpl Nat.sub. rewrite Nat.sub_0_r. simpl Route.trimEnd.
    rewrite app_nil_r. f_equal.
    exact (split_go_spaces (Route.Around x) [] [] b).
  - change ((c :: a) ++ x :: b) with (c :: a ++ x :: b).
    cbn [Route.split_go].
    destruct (forallb Route.is_space (c :: a)) eqn:Hall.
    + assert (Hm : Route.match_at (Route.Around x) (c :: a ++ x :: b) =
                   Some (List.length (c :: a) + 1 + Route.spaces b)%nat).
      { unfold Route.match_at.
        change (c :: a ++ x :: b) with ((c :: a) ++ x :: b).
        rewrite spaces_all by exact Hall.
        cbn [Route.spaces]. rewrite Hx, Nat.add_0_r. cbv zeta.
        rewrite skipn_app, skipn_all, Nat.sub_diag. cbn [skipn app].
        rewrite Z.eqb_refl. reflexivity. }
      rewrite Hm. cbn [Route.trimEnd]. rewrite Hall, app_nil_r. f_equal.
      replace (List.length (c :: a) + 1 + Route.spaces b - 1)%nat
        with (List.length (a ++ [x]) + Route.spaces b)%nat
        by (rewrite length_app; simpl; lia).
      replace (a ++ x :: b) with ((a ++ [x]) ++ b)
        by (rewrite <- app_assoc; reflexivity).
      apply split_go_spaces.
    + assert (Hm : Route.match_at (Route.Around x) (c :: a ++ x :: b) = None).
      { unfold Route.match_at.
        change (c :: a ++ x :: b) with ((c :: a) ++ x :: b).
        cbv zeta.
        destruct (spaces_not_all (c :: a) (x :: b) Hall) as (c' & r & -> & Hin).
        destruct (c' =? x) eqn:Ec; [|reflexivity].
        apply Z.eqb_eq in Ec. subst c'. contradiction. }
      rewrite Hm, IH by (intros Hin; apply Ha; right; exact Hin).
      cbn [Route.trimEnd]. rewrite Hall. simpl. rewrite <- app_assoc.
      reflexivity.
Qed.

Lemma split_regex_one (x : Z) (a b : jsstring) :
  Route.is_space x = false -> ~ In x a -> ~ In x b ->
  Route.split_regex (Route.Around x) (a ++ x :: b) =
  [Route.trimEnd a; Route.trimStart b].
Proof.
  intros Hx Ha Hb. unfold Route.split_regex.
  rewrite split_go_one by assumption.
  rewrite split_go_absent
    by (intros H; apply Hb; apply trimStart_In; exact H).
  reflexivity.
Qed.

Lemma trimEnd_nil (s : jsstring) :
  Route.trimEnd s = [] -> forallb Route.is_space s = true.
Proof.
  destruct s as [|c r]; [reflexivity|].
  cbn [Route.trimEnd]. destruct (forallb Route.is_space (c :: r));
    [reflexivity|discriminate].
Qed.

Lemma trimEnd_all_space (s : jsstring) :
  forallb Route.is_space (Route.trimEnd s) = true -> Route.trimEnd s = [].
Proof.
  induction s as [|c r IH]; [reflexivity|].
  cbn [Route.trimEnd]. destruct (forallb Route.is_space (c :: r)) eqn:E;
    [reflexivity|].
  intros H. exfalso. simpl in H. apply andb_true_iff in H.
  destruct H as [Hc Hr]. apply IH in Hr. apply trimEnd_nil in Hr.
  simpl in E. rewrite Hc, Hr in E. discriminate.
Qed.

Lemma trimEnd_idem (s : jsstring) :
  Route.trimEnd (Route.trimEnd s) = Route.trimEnd s.
Proof.
  induction s as [|c r IH]; [reflexivity|].
  cbn [Route.trimEnd]. destruct (forallb Route.is_space (c :: r)) eqn:E;
    [reflexivity|].
  cbn [Route.trimEnd].
  destruct (forallb Route.is_space (c :: Route.trimEnd r)) eqn:E'.
  - exfalso. simpl in E'. apply andb_true_iff in E'. destruct E' as [Hc Hr].
    apply trimEnd_all_space in Hr. apply trimEnd_nil in Hr.
    simpl in E. rewrite Hc, Hr in E. discriminate.
  - rewrite IH. reflexivity.
Qed.

Lemma trimStart_cons_space (c : Z) (s : jsstring) :
  Route.is_space c = true -> Route.trimStart (c :: s) = Route.trimStart s.
Proof. intros H. unfold Route.trimStart. simpl. rewrite H. reflexivity. Qed.

Lemma trimStart_cons_other (c : Z) (s : jsstring) :
  Route.is_space c = false -> Route.trimStart (c :: s) = c :: s.
Proof. intros H. unfold Route.trimStart. simpl. rewrite H. reflexivity. Qed.

Lemma trimStart_all_space (s : jsstring) :
  forallb Route.is_space s = true -> Route.trimStart s = [].
Proof.
  intros H. unfold Route.trimStart. rewrite spaces_all_length by exact H.
  apply skipn_all.
Qed.

Lemma trimStart_trimEnd (s : jsstring) :
  Route.trimStart (Route.trimEnd s) = Route.trimEnd (Route.trimStart s).
Proof.
  induction s as [|c r IH]; [reflexivity|].
  cbn [Route.trimEnd]. destruct (forallb Route.is_space (c :: r)) eqn:E.
  - rewrite (trimStart_all_space (c :: r) E). reflexivity.
  - destruct (Route.is_space c) eqn:Hc.
    + rewrite !trimStart_cons_space by exact Hc. exact IH.
    + rewrite !trimStart_cons_other by exact Hc.
      cbn [Route.trimEnd]. rewrite E. reflexivity.
Qed.

Lemma trimStart_idem (s : jsstring) :
  Route.trimStart (Route.trimStart s) = Route.trimStart s.
Proof.
  induction s as [|c r IH]; [reflexivity|].
  destruct (Route.is_space c) eqn:Hc.
  - rewrite !trimStart_cons_space by exact Hc. exact IH.
  - rewrite !trimStart_cons_other by exact Hc. reflexivity.
Qed.

Lemma trim_trimEnd (s : jsstring) : Route.trim (Route.trimEnd s) = Route.trim s.
Proof.
  unfold Route.trim. rewrite trimStart_trimEnd, trimEnd_idem. reflexivity.
Qed.

Lemma trim_trimStart (s : jsstring) :
  Route.trim (Route.trimStart s) = Route.trim s.
Proof. unfold Route.trim. rewrite trimStart_idem. reflexivity. Qed.

Lemma or_else_nil (s : jsstring) : Route.or_else s [] = s.
Proof. destruct s; reflexivity. Qed.





Lemma or_else_nonempty (s fallback : jsstring) :
  fallback <> [] -> Route.or_else s fallback <> [].
Proof. intros H. destruct s; [exact H|discriminate]. Qed.

(** A separator that does not cut the route in exactly two parts. *)
Lemma try_separators_first
  (seps : list Route.separator) (s fromLocation toLocation : jsstring) :
  (Forall (fun sep => forall q0 q1, Route.split_regex sep s <> [q0; q1]) seps /\
   Route.try_separators seps s fromLocation toLocation =
     (fromLocation, toLocation)) \/
  exists tried sep rest p0 p1,
    seps = tried ++ sep :: rest /\
    Forall (fun x => forall q0 q1, Route.split_regex x s <> [q0; q1]) tried /\
    Route.split_regex sep s = [p0; p1] /\
    Route.try_separators seps s fromLocation toLocation =
      (Route.or_else (Route.trim p0) fromLocation,
       Route.or_else (Route.trim p1) toLocation).
Proof.
  induction seps as [|sep rest IH]; [left; split; [constructor|reflexivity]|].
  cbn [Route.try_separators].
  destruct (Route.split_regex sep s) as [|p0 [|p1 [|p2 ps]]] eqn:E;
    try (destruct IH as [[Hall IH]|(tried & sep' & rest' & q0 & q1 & Hl & Hall & Hs & Hr)];
         [left; split;
          [constructor; [intros q0 q1; rewrite E; discriminate|exact Hall]|
           exact IH]|
          right; exists (sep :: tried), sep', rest', q0, q1;
          split; [rewrite Hl; reflexivity|];
          split; [constructor;
                  [intros q0' q1'; rewrite E; discriminate|exact Hall]|];
          split; [exact Hs|exact Hr]]).
  right. exists [], sep, rest, p0, p1. split; [reflexivity|].
  split; [constructor|]. split; [exact E|].
  rewrite !or_else_nil. reflexivity.
Qed.

(** X11.  When both station fields of the form are filled, neither label
    is ever empty, whatever the route is (absent, not a string, blank,
    with any separators).  More precisely: when no separator cuts the
    route in exactly two parts (in particular when the route is absent,
    not a string or empty), the labels are the form's two stations;
    otherwise they are the two parts at the first separator, in the order
    of the list, that cuts the route in exactly two, each trimmed, and a
    part that is empty after trimming is replaced by the form's station
    on that side. *)
Theorem station_labels_never_empty
  (fromLocation toLocation : jsstring) (routeText : jsval) :
  fromLocation <> [] -> toLocation <> [] ->
  fst (Route.getStationsFromRoute fromLocation toLocation routeText) <> [] /\
  snd (Route.getStationsFromRoute fromLocation toLocation routeText) <> [] /\
  ((Route.getStationsFromRoute fromLocation toLocation routeText =
      (fromLocation, toLocation) /\
    forall s sep p0 p1,
      routeText = Some (JString s) -> In sep Route.separators ->
      Route.split_regex sep s <> [p0; p1]) \/
   exists s tried sep rest p0 p1,
     routeText = Some (JString s) /\
     Route.separators = tried ++ sep :: rest /\
     (forall x q0 q1, In x tried -> Route.split_regex x s <> [q0; q1]) /\
     Route.split_regex sep s = [p0; p1] /\
     fst (Route.getStationsFromRoute fromLocation toLocation routeText) =
       match Route.trim p0 with
       | [] => fromLocation
       | _ => Route.trim p0
       end /\
     snd (Route.getStationsFromRoute fromLocation toLocation routeText) =
       match Route.trim p1 with
       | [] => toLocation
       | _ => Route.trim p1
       end).
Proof.
  intros Hf Ht.
  assert (H : (Route.getStationsFromRoute fromLocation toLocation routeText =
                 (fromLocation, toLocation) /\
               forall s sep p0 p1,
                 routeText = Some (JString s) -> In sep Route.separators ->
                 Route.split_regex sep s <> [p0; p1]) \/
              exists s tried sep rest p0 p1,
                routeText = Some (JString s) /\
                Route.separators = tried ++ sep :: rest /\
                (forall x q0 q1, In x tried ->
                                 Route.split_regex x s <> [q0; q1]) /\
                Route.split_regex sep s = [p0; p1] /\
                Route.getStationsFromRoute fromLocation toLocation routeText =
                  (Route.or_else (Route.trim p0) fromLocation,
                   Route.or_else (Route.trim p1) toLocation)).
  { destruct routeText as [v|].
    2:{ left. split; [reflexivity|]. intros; discriminate. }
    destruct v as [| | |s| |];
      try (left; split; [reflexivity|]; intros; discriminate).
    destruct s as [|c r].
    { left. split; [reflexivity|].
      intros s sep p0 p1 Hs Hin. injection Hs as <-.
      repeat (destruct Hin as [<-|Hin]; [vm_compute; discriminate|]).
      destruct Hin. }
    unfold Route.getStationsFromRoute.
    destruct (try_separators_first Route.separators (c :: r)
                fromLocation toLocation)
      as [[Hall E]|(tried & sep & rest & p0 & p1 & Hl & Hall & Hs & E)].
    - left. split; [exact E|].
      intros s sep p0 p1 Hs Hin. injection Hs as <-.
      rewrite Forall_forall in Hall. apply Hall. exact Hin.
    - right. exists (c :: r), tried, sep, rest, p0, p1.
      split; [reflexivity|]. split; [exact Hl|].
      split; [|split; [exact Hs|exact E]].
      intros x q0 q1 Hin. rewrite Forall_forall in Hall.
      apply Hall. exact Hin. }
  destruct H as [[E Hno]|(s & tried & sep & rest & p0 & p1 & Hr & Hl & Hno & Hs & E)].
  - rewrite E. split; [exact Hf|]. split; [exact Ht|]. left.
    split; [reflexivity|exact Hno].
  - rewrite E. simpl fst. simpl snd.
    split; [apply or_else_nonempty; exact Hf|].
    split; [apply or_else_nonempty; exact Ht|].
    right. exists s, tried, sep, rest, p0, p1.
    repeat (split; [assumption|]). split; reflexivity.
Qed.

(** A route whose first part is blank: the arrow does not cut it, the
    hyphen does, and the blank side is the form's station. *)
Lemma station_labels_never_empty_witness :
  fst (Route.getStationsFromRoute (js "EUS") (js "KGL")
         (Some (JString (js " - Kings Langley")))) <> [] /\
  snd (Route.getStationsFromRoute (js "EUS") (js "KGL")
         (Some (JString (js " - Kings Langley")))) <> [] /\
  ((Route.getStationsFromRoute (js "EUS") (js "KGL")
      (Some (JString (js " - Kings Langley"))) = (js "EUS", js "KGL") /\
    forall s sep p0 p1,
      Some (JString (js " - Kings Langley")) = Some (JString s) ->
      In sep Route.separators ->
      Route.split_regex sep s <> [p0; p1]) \/
   exists s tried sep rest p0 p1,
     Some (JString (js " - Kings Langley")) = Some (JString s) /\
     Route.separators = tried ++ sep :: rest /\
     (forall x q0 q1, In x tried -> Route.split_regex x s <> [q0; q1]) /\
     Route.split_regex sep s = [p0; p1] /\
     fst (Route.getStationsFromRoute (js "EUS") (js "KGL")
            (Some (JString (js " - Kings Langley")))) =
       match Route.trim p0 with
       | [] => js "EUS"
       | _ => Route.trim p0
       end /\
     snd (Route.getStationsFromRoute (js "EUS") (js "KGL")
            (Some (JString (js " - Kings Langley")))) =
       match Route.trim p1 with
       | [] => js "KGL"
       | _ => Route.trim p1
       end).
Proof.
  apply (station_labels_never_empty (js "EUS") (js "KGL")
           (Some (JString (js " - Kings Langley"))));
    vm_compute; discriminate.
Defined.

Lemma one_separator (x : Z) (a b fromLocation toLocation : jsstring)
  (rest : list Route.separator) :
  Route.is_space x = false -> ~ In x a -> ~ In x b ->
  Route.try_separators (Route.Around x :: rest) (a ++ x :: b)
    fromLocation toLocation =
  (Route.or_else (Route.trim a) fromLocation,
   Route.or_else (Route.trim b) toLocation).
Proof.
  intros Hx Ha Hb. cbn [Route.try_separators].
  rewrite split_regex_one by assumption.
  rewrite !or_else_nil, trim_trimEnd, trim_trimStart. reflexivity.
Qed.

Lemma arrow_route (a b fromLocation toLocation : jsstring) :
  ~ In Route.arrow a -> ~ In Route.arrow b ->
  Route.getStationsFromRoute fromLocation toLocation
    (Some (JString (a ++ Route.arrow :: b))) =
  (Route.or_else (Route.trim a) fromLocation,
   Route.or_else (Route.trim b) toLocation).
Proof.
  intros Ha Hb. unfold Route.getStationsFromRoute.
  destruct (a ++ Route.arrow :: b) as [|c r] eqn:E.
  { destruct a; discriminate E. }
  rewrite <- E. unfold Route.separators.
  apply one_separator; [reflexivity|exact Ha|exact Hb].
Qed.

(** X12.  A route with exactly one arrow is cut at the arrow: the labels
    are the two sides, trimmed, and a side that is blank is replaced by
    the form's station; hyphens and other separators inside the sides are
    left alone. *)
Theorem route_with_one_arrow
  (a b fromLocation toLocation : jsstring) :
  ~ In Route.arrow a -> ~ In Route.arrow b ->
  Route.getStationsFromRoute fromLocation toLocation
    (Some (JString (a ++ Route.arrow :: b))) =
  (Route.or_else (Route.trim a) fromLocation,
   Route.or_else (Route.trim b) toLocation).
Proof. intros Ha Hb. apply arrow_route; assumption. Qed.

Lemma route_with_one_arrow_witness :
  Route.getStationsFromRoute (js "EUS") (js "KGL")
    (Some (JString (js "Stratford-upon-Avon " ++ Route.arrow :: js "  "))) =
  (Route.or_else (Route.trim (js "Stratford-upon-Avon ")) (js "EUS"),
   Route.or_else (Route.trim (js "  ")) (js "KGL")).
Proof.
  apply (route_with_one_arrow (js "Stratford-upon-Avon ") (js "  ")
           (js "EUS") (js "KGL")).
  - vm_compute. intuition discriminate.
  - vm_compute. intuition discriminate.
Defined.

Lemma absent_separator (x : Z) (s fromLocation toLocation : jsstring)
  (rest : list Route.separator) :
  ~ In x s ->
  Route.try_separators (Route.Around x :: rest) s fromLocation toLocation =
  Route.try_separators rest s fromLocation toLocation.
Proof.
  intros H. cbn [Route.try_separators]. unfold Route.split_regex.
  rewrite split_go_absent by exact H. reflexivity.
Qed.

(** X13.  A route with no arrow and exactly one hyphen is cut at the
    hyphen, in the same way. *)
Theorem route_with_one_hyphen
  (a b fromLocation toLocation : jsstring) :
  ~ In Route.arrow (a ++ Route.hyphen :: b) ->
  ~ In Route.hyphen a -> ~ In Route.hyphen b ->
  Route.getStationsFromRoute fromLocation toLocation
    (Some (JString (a ++ Route.hyphen :: b))) =
  (Route.or_else (Route.trim a) fromLocation,
   Route.or_else (Route.trim b) toLocation).
Proof.
  intros Hn Ha Hb. unfold Route.getStationsFromRoute.
  destruct (a ++ Route.hyphen :: b) as [|c r] eqn:E.
  { destruct a; discriminate E. }
  rewrite <- E in *. unfold Route.separators.
  rewrite absent_separator by exact Hn.
  apply one_separator; [reflexivity|exact Ha|exact Hb].
Qed.

Lemma route_with_one_hyphen_witness :
  Route.getStationsFromRoute (js "EUS") (js "KGL")
    (Some (JString (js "London Euston " ++ Route.hyphen :: js " Kings Langley"))) =
  (Route.or_else (Route.trim (js "London Euston ")) (js "EUS"),
   Route.or_else (Route.trim (js " Kings Langley")) (js "KGL")).
Proof.
  apply (route_with_one_hyphen (js "London Euston ") (js " Kings Langley")
           (js "EUS") (js "KGL")).
  - vm_compute. intuition discriminate.
  - vm_compute. intuition discriminate.
  - vm_compute. intuition discriminate.
Defined.



(* ===================================================================== *)
(** ** Chart data *)
(* ===================================================================== *)

Lemma lookup_In (k : jsstring) (members : list (jsstring * json)) :
  lookup k members <> None <-> In k (List.map fst members).
Proof.
  induction members as [|[k' v] r IH]; simpl.
  - split; [intros H; contradiction|intros []].
  - destruct (lookup k r) as [v'|] eqn:E.
    + split; [intros _; right; apply IH; discriminate|discriminate].
    + destruct (jsstring_eqb k' k) eqn:Ek.
      * apply jsstring_eqb_eq in Ek. split; [intros _; left; exact Ek|discriminate].
      * split; [intros H; contradiction|].
        intros [H|H].
        -- subst k'. rewrite (proj2 (jsstring_eqb_eq k k) eq_refl) in Ek.
           discriminate.
        -- apply IH in H. contradiction.
Qed.

Lemma first_keys_In (k : jsstring) (ks : list jsstring) :
  In k (Chart.first_keys ks) <-> In k ks.
Proof.
  induction ks as [|x r IH]; simpl; [tauto|].
  rewrite filter_In, IH. split.
  - intros [H|[H _]]; [left|right]; assumption.
  - intros [H|H]; [left; exact H|].
    destruct (jsstring_eqb k x) eqn:E.
    + left. apply jsstring_eqb_eq in E. symmetry. exact E.
    + right. split; [exact H|reflexivity].
Qed.

Lemma first_keys_NoDup (ks : list jsstring) : NoDup (Chart.first_keys ks).
Proof.
  induction ks as [|x r IH]; simpl; constructor.
  - rewrite filter_In. intros [_ H].
    rewrite (proj2 (jsstring_eqb_eq x x) eq_refl) in H. discriminate.
  - apply NoDup_filter. exact IH.
Qed.

Lemma insert_perm (k : jsstring) (l : list jsstring) :
  Permutation (Chart.insert k l) (k :: l).
Proof.
  induction l as [|x r IH]; simpl; [reflexivity|].
  destruct (Chart.index_leb k x); [reflexivity|].
  rewrite IH. apply perm_swap.
Qed.

Lemma sort_perm (l : list jsstring) : Permutation (Chart.sort l) l.
Proof.
  induction l as [|k r IH]; simpl; [reflexivity|].
  rewrite insert_perm, IH. reflexivity.
Qed.

Lemma own_keys_In (k : jsstring) (members : list (jsstring * json)) :
  In k (Chart.own_keys members) <-> lookup k members <> None.
Proof.
  unfold Chart.own_keys. rewrite lookup_In, in_app_iff.
  rewrite (Permutation_in' (eq_refl k) (sort_perm _)).
  rewrite !filter_In, first_keys_In.
  destruct (Chart.is_index k); simpl; intuition discriminate.
Qed.

Lemma own_keys_NoDup (members : list (jsstring * json)) :
  NoDup (Chart.own_keys members).
Proof.
  unfold Chart.own_keys.
  set (ks := Chart.first_keys (List.map fst members)).
  pose proof (first_keys_NoDup (List.map fst members)) as Hnd. fold ks in Hnd.
  apply NoDup_app.
  - apply (Permutation_NoDup (Permutation_sym (sort_perm _))).
    apply NoDup_filter. exact Hnd.
  - apply NoDup_filter. exact Hnd.
  - intros k H1 H2.
    apply (Permutation_in k (sort_perm _)) in H1.
    apply filter_In in H1. apply filter_In in H2.
    destruct H1 as [_ H1]. destruct H2 as [_ H2].
    rewrite H1 in H2. discriminate.
Qed.

Lemma values_of_keys (members : list (jsstring * json)) (ks : list jsstring) :
  (forall k, In k ks -> lookup k members <> None) ->
  List.map (fun k => lookup k members) ks =
  List.map Some
    (flat_map (fun k => match lookup k members with
                        | Some v => [v]
                        | None => []
                        end) ks).
Proof.
  induction ks as [|k r IH]; intros H; [reflexivity|].
  simpl. rewrite map_app, <- IH by (intros k' Hk; apply H; right; exact Hk).
  specialize (H k (or_introl eq_refl)).
  destruct (lookup k members); [reflexivity|contradiction].
Qed.

(** X15.  For a histogram that is an object, the chart has one dataset;
    the labels are the histogram's keys, each once even when the JSON
    text wrote a key twice; and the value at each position of [data] is
    the histogram's value for the label at that position, so labels and
    values have the same length and no bar is dropped. *)
Theorem chart_labels_match_data
  (delayData : jsval) (title color : jsstring)
  (members : list (jsstring * json)) :
  Chart.histogram_of delayData = Some (JObject members) ->
  exists values,
    Chart.createChartData delayData title color =
      Some (Chart.mkChart (Chart.own_keys members)
              [Chart.mkDataset (title ++ js " (Services)") values color
                 (Chart.replace_06 color) 1]) /\
    List.map (fun k => lookup k members) (Chart.own_keys members) =
      List.map Some values /\
    List.length (Chart.own_keys members) = List.length values /\
    NoDup (Chart.own_keys members) /\
    (forall k, In k (Chart.own_keys members) <-> lookup k members <> None).
Proof.
  intros H.
  exists (Chart.Object_values (JObject members)).
  assert (Hv : List.map (fun k => lookup k members) (Chart.own_keys members) =
               List.map Some (Chart.Object_values (JObject members))).
  { apply values_of_keys. intros k Hk. apply own_keys_In. exact Hk. }
  split; [|split; [exact Hv|split; [|split]]].
  - unfold Chart.createChartData. rewrite H.
    destruct delayData as [[| | | | |m]|]; try discriminate H. reflexivity.
  - transitivity
      (List.length
         (List.map (fun k => lookup k members) (Chart.own_keys members)));
      [symmetry; apply length_map|rewrite Hv; apply length_map].
  - apply own_keys_NoDup.
  - intros k. apply own_keys_In.
Qed.

Lemma chart_labels_match_data_witness :
  exists values,
    Chart.createChartData
      (Some (JObject [(js "histogram",
                       JObject [(js "5-10", num 7); (js "0-5", num 3);
                                (js "5-10", num 9)])]))
      (js "Departures") (js "rgba(97, 218, 251, 0.8)") =
      Some (Chart.mkChart
              (Chart.own_keys [(js "5-10", num 7); (js "0-5", num 3);
                               (js "5-10", num 9)])
              [Chart.mkDataset (js "Departures" ++ js " (Services)") values
                 (js "rgba(97, 218, 251, 0.8)")
                 (Chart.replace_06 (js "rgba(97, 218, 251, 0.8)")) 1]) /\
    List.map (fun k => lookup k [(js "5-10", num 7); (js "0-5", num 3);
                                 (js "5-10", num 9)])
      (Chart.own_keys [(js "5-10", num 7); (js "0-5", num 3);
                       (js "5-10", num 9)]) =
      List.map Some values /\
    List.length (Chart.own_keys [(js "5-10", num 7); (js "0-5", num 3);
                                 (js "5-10", num 9)]) =
      List.length values /\
    NoDup (Chart.own_keys [(js "5-10", num 7); (js "0-5", num 3);
                           (js "5-10", num 9)]) /\
    (forall k,
        In k (Chart.own_keys [(js "5-10", num 7); (js "0-5", num 3);
                              (js "5-10", num 9)]) <->
        lookup k [(js "5-10", num 7); (js "0-5", num 3); (js "5-10", num 9)]
        <> None).
Proof.
  apply (chart_labels_match_data
           (Some (JObject [(js "histogram",
                            JObject [(js "5-10", num 7); (js "0-5", num 3);
                                     (js "5-10", num 9)])]))
           (js "Departures") (js "rgba(97, 218, 251, 0.8)")
           [(js "5-10", num 7); (js "0-5", num 3); (js "5-10", num 9)]).
  reflexivity.
Defined.

(* ===================================================================== *)
(** ** Lines that end with a carriage return *)
(* ===================================================================== *)

Lemma parse_value_S (f : nat) (s : jsstring) :
  parse_value (S f) s =
  match peek 123 (skip_ws s) with
  | Some r =>
      match peek 125 (skip_ws r) with
      | Some r' => POk (JObject []) r'
      | None => parse_members f r []
      end
  | None =>
      match peek 91 (skip_ws s) with
      | Some r =>
          match peek 93 (skip_ws r) with
          | Some r' => POk (JArray []) r'
          | None => parse_elements f r []
          end
      | None => parse_scalar (skip_ws s)
      end
  end.
Proof. reflexivity. Qed.

Lemma parse_elements_S (f : nat) (s : jsstring) (acc : list json) :
  parse_elements (S f) s acc =
  match parse_value f s with
  | POk v r =>
      match peek 44 (skip_ws r) with
      | Some r' => parse_elements f r' (v :: acc)
      | None =>
          match peek 93 (skip_ws r) with
          | Some r' => POk (JArray (rev (v :: acc))) r'
          | None => PSyntaxError
          end
      end
  | e => e
  end.
Proof. reflexivity. Qed.

Lemma parse_members_S (f : nat) (s : jsstring) (acc : list (jsstring * json)) :
  parse_members (S f) s acc =
  match peek 34 (skip_ws s) with
  | Some r =>
      match parse_string r with
      | Some (k, r1) =>
          match peek 58 (skip_ws r1) with
          | Some r2 =>
              match parse_value f r2 with
              | POk v r3 =>
                  match peek 44 (skip_ws r3) with
                  | Some r4 => parse_members f r4 ((k, v) :: acc)
                  | None =>
                      match peek 125 (skip_ws r3) with
                      | Some r4 => POk (JObject (rev ((k, v) :: acc))) r4
                      | None => PSyntaxError
                      end
                  end
              | e => e
              end
          | None => PSyntaxError
          end
      | None => PSyntaxError
      end
  | None => PSyntaxError
  end.
Proof. reflexivity. Qed.

(** A parse that did not run out of fuel is the same with more fuel. *)
Lemma parse_fuel_S (f : nat) :
  (forall s, parse_value f s <> POutOfFuel ->
             parse_value (S f) s = parse_value f s) /\
  (forall s acc, parse_elements f s acc <> POutOfFuel ->
                 parse_elements (S f) s acc = parse_elements f s acc) /\
  (forall s acc, parse_members f s acc <> POutOfFuel ->
                 parse_members (S f) s acc = parse_members f s acc).
Proof.
  induction f as [|f (IHv & IHe & IHm)].
  { repeat split; intros; exfalso; auto. }
  split; [|split].
  - intros s. rewrite (parse_value_S (S f)), (parse_value_S f).
    destruct (peek 123 (skip_ws s)) as [r|].
    { destruct (peek 125 (skip_ws r)); [reflexivity|apply IHm]. }
    destruct (peek 91 (skip_ws s)) as [r|]; [|reflexivity].
    destruct (peek 93 (skip_ws r)); [reflexivity|apply IHe].
  - intros s acc. rewrite (parse_elements_S (S f)), (parse_elements_S f).
    destruct (parse_value f s) as [v r| |] eqn:E.
    + rewrite IHv by (rewrite E; discriminate). rewrite E.
      destruct (peek 44 (skip_ws r)); [apply IHe|reflexivity].
    + rewrite IHv by (rewrite E; discriminate). rewrite E. reflexivity.
    + intros H. contradiction.
  - intros s acc. rewrite (parse_members_S (S f)), (parse_members_S f).
    destruct (peek 34 (skip_ws s)) as [r|]; [|reflexivity].
    destruct (parse_string r) as [[k r1]|]; [|reflexivity].
    destruct (peek 58 (skip_ws r1)) as [r2|]; [|reflexivity].
    destruct (parse_value f r2) as [v r3| |] eqn:E.
    + rewrite IHv by (rewrite E; discriminate). rewrite E.
      destruct (peek 44 (skip_ws r3)); [apply IHm|reflexivity].
    + rewrite IHv by (rewrite E; discriminate). rewrite E. reflexivity.
    + intros H. contradiction.
Qed.

Section TrailingWhiteSpace.

Variable w : Z.
Hypothesis Hws : is_ws w = true.

Lemma ws_cases : w = 9 \/ w = 10 \/ w = 13 \/ w = 32.
Proof.
  pose proof Hws as H. unfold is_ws in H.
  repeat (apply orb_true_iff in H; destruct H as [H|H]);
    apply Z.eqb_eq in H; auto.
Qed.

Lemma skip_ws_app (s : jsstring) :
  skip_ws (s ++ [w]) =
  match skip_ws s with
  | [] => []
  | t => t ++ [w]
  end.
Proof.
  induction s as [|c s IH]; simpl.
  - rewrite Hws. reflexivity.
  - destruct (is_ws c); [exact IH|reflexivity].
Qed.

Lemma peek_skip_ws_app (c : Z) (s : jsstring) :
  peek c (skip_ws (s ++ [w])) =
  option_map (fun r => r ++ [w]) (peek c (skip_ws s)).
Proof.
  rewrite skip_ws_app. destruct (skip_ws s) as [|x t]; [reflexivity|].
  simpl. destruct (x =? c); reflexivity.
Qed.

Lemma digits_app (s : jsstring) :
  digits (s ++ [w]) = (fst (digits s), snd (digits s) ++ [w]).
Proof.
  induction s as [|c s IH]; simpl.
  - replace (is_digit w) with false; [reflexivity|].
    destruct ws_cases as [-> | [-> | [-> | ->]]]; reflexivity.
  - destruct (is_digit c); [|reflexivity].
    rewrite IH. destruct (digits s). reflexivity.
Qed.

Lemma peek_app (c : Z) (s : jsstring) :
  is_ws c = false ->
  peek c (s ++ [w]) = option_map (fun r => r ++ [w]) (peek c s).
Proof.
  intros Hc. destruct s as [|x t]; simpl.
  - replace (w =? c) with false; [reflexivity|].
    symmetry. apply Z.eqb_neq. intros ->. rewrite Hws in Hc. discriminate.
  - destruct (x =? c); reflexivity.
Qed.

Lemma cons_fst_app_snd (c : Z) (o : option (jsstring * jsstring)) :
  cons_fst c (app_snd w o) = app_snd w (cons_fst c o).
Proof. destruct o as [[k r]|]; reflexivity. Qed.

Lemma parse_string_app (n : nat) (s : jsstring) :
  (List.length s <= n)%nat ->
  parse_string (s ++ [w]) = app_snd w (parse_string s).
Proof.
  revert s. induction n as [|n IH]; intros s Hn.
  - destruct s; [|simpl in Hn; lia]. simpl.
    destruct ws_cases as [-> | [-> | [-> | ->]]]; reflexivity.
  - destruct s as [|c s].
    { simpl. destruct ws_cases as [-> | [-> | [-> | ->]]]; reflexivity. }
    simpl in Hn. simpl.
    destruct (c =? 34); [reflexivity|].
    destruct (c =? 92).
    + destruct s as [|e s1].
      { simpl. destruct ws_cases as [-> | [-> | [-> | ->]]]; reflexivity. }
      simpl in Hn. simpl. destruct (e =? 117).
      * destruct s1 as [|h1 [|h2 [|h3 [|h4 s2]]]]; simpl; try reflexivity.
        -- unfold hex4.
           replace (hex_value w) with (@None Z)
             by (destruct ws_cases as [-> | [-> | [-> | ->]]]; reflexivity).
           destruct (hex_value h1), (hex_value h2), (hex_value h3);
             reflexivity.
        -- simpl in Hn. destruct (hex4 h1 h2 h3 h4); [|reflexivity].
           rewrite IH by lia. apply cons_fst_app_snd.
      * destruct (escape e); [|reflexivity].
        rewrite IH by lia. apply cons_fst_app_snd.
    + destruct (c <? 32); [reflexivity|].
      rewrite IH by lia. apply cons_fst_app_snd.
Qed.

Lemma parse_int_app (s : jsstring) :
  parse_int (s ++ [w]) = app_snd w (parse_int s).
Proof.
  destruct s as [|c s]; simpl.
  - destruct ws_cases as [-> | [-> | [-> | ->]]]; reflexivity.
  - destruct (c =? 48); [reflexivity|].
    destruct (is_digit c); [|reflexivity].
    rewrite digits_app. destruct (digits s). reflexivity.
Qed.

Lemma parse_fraction_app (s : jsstring) :
  parse_fraction (s ++ [w]) = app_snd w (parse_fraction s).
Proof.
  unfold parse_fraction.
  rewrite peek_app
    by (destruct ws_cases as [-> | [-> | [-> | ->]]]; reflexivity).
  destruct (peek 46 s) as [r|]; simpl; [|reflexivity].
  rewrite digits_app. destruct (digits r) as [[|d ds] rest]; reflexivity.
Qed.

Lemma parse_sign_app (s : jsstring) :
  parse_sign (s ++ [w]) = (fst (parse_sign s), snd (parse_sign s) ++ [w]).
Proof.
  unfold parse_sign.
  rewrite !peek_app
    by (destruct ws_cases as [-> | [-> | [-> | ->]]]; reflexivity).
  destruct (peek 45 s); simpl; [reflexivity|].
  destruct (peek 43 s); reflexivity.
Qed.

Lemma parse_exponent_app (s : jsstring) :
  parse_exponent (s ++ [w]) = app_snd w (parse_exponent s).
Proof.
  destruct s as [|c s]; simpl.
  - destruct ws_cases as [-> | [-> | [-> | ->]]]; reflexivity.
  - destruct ((c =? 101) || (c =? 69)); [|reflexivity].
    rewrite parse_sign_app. destruct (parse_sign s) as [neg r1]. simpl.
    rewrite digits_app. destruct (digits r1) as [[|d ds] rest]; reflexivity.
Qed.

Lemma parse_number_app (s : jsstring) :
  parse_number (s ++ [w]) = app_snd w (parse_number s).
Proof.
  unfold parse_number.
  rewrite peek_app
    by (destruct ws_cases as [-> | [-> | [-> | ->]]]; reflexivity).
  assert (H : forall neg s1,
     match parse_int (s1 ++ [w]) with
     | Some (ints, s2) =>
         match parse_fraction s2 with
         | Some (fracs, s3) =>
             match parse_exponent s3 with
             | Some (e, s4) =>
                 Some (mkNumber neg (digits_value (ints ++ fracs))
                         (e - Z.of_nat (List.length fracs)), s4)
             | None => None
             end
         | None => None
         end
     | None => None
     end =
     app_snd w
       match parse_int s1 with
       | Some (ints, s2) =>
           match parse_fraction s2 with
           | Some (fracs, s3) =>
               match parse_exponent s3 with
               | Some (e, s4) =>
                   Some (mkNumber neg (digits_value (ints ++ fracs))
                           (e - Z.of_nat (List.length fracs)), s4)
               | None => None
               end
           | None => None
           end
       | None => None
       end).
  { intros neg s1. rewrite parse_int_app.
    destruct (parse_int s1) as [[ints s2]|]; simpl; [|reflexivity].
    rewrite parse_fraction_app.
    destruct (parse_fraction s2) as [[fracs s3]|]; simpl; [|reflexivity].
    rewrite parse_exponent_app.
    destruct (parse_exponent s3) as [[e s4]|]; reflexivity. }
  destruct (peek 45 s) as [r|]; simpl; apply H.
Qed.

Lemma startsWith_app (p s : jsstring) :
  ~ In w p -> startsWith (s ++ [w]) p = startsWith s p.
Proof.
  revert s. induction p as [|x p IH]; intros s H; [reflexivity|].
  destruct s as [|c s]; simpl.
  - replace (w =? x) with false; [reflexivity|].
    symmetry. apply Z.eqb_neq. intros ->. apply H. left. reflexivity.
  - rewrite IH by (intros Hin; apply H; right; exact Hin). reflexivity.
Qed.

Lemma startsWith_length (p s : jsstring) :
  startsWith s p = true -> (List.length p <= List.length s)%nat.
Proof.
  revert s. induction p as [|x p IH]; intros s H; simpl; [lia|].
  destruct s as [|c s]; [discriminate|]. simpl in H.
  apply andb_true_iff in H. destruct H as [_ H]. apply IH in H. simpl. lia.
Qed.

Lemma literal_app (word : string) (v : json) (s : jsstring) :
  ~ In w (js word) ->
  List.length (js word) = String.length word ->
  literal word v (s ++ [w]) = app_rest w (literal word v s).
Proof.
  intros H Hl. unfold literal. rewrite startsWith_app by exact H.
  destruct (startsWith s (js word)) eqn:E; [|reflexivity].
  apply startsWith_length in E. simpl. rewrite skipn_app.
  replace (String.length word - List.length s)%nat with 0%nat by lia.
  reflexivity.
Qed.

Lemma parse_scalar_app (s : jsstring) :
  parse_scalar (skip_ws (s ++ [w])) = app_rest w (parse_scalar (skip_ws s)).
Proof.
  rewrite skip_ws_app. destruct (skip_ws s) as [|c r]; [reflexivity|].
  change ((c :: r) ++ [w]) with (c :: (r ++ [w])).
  cbn [parse_scalar].
  destruct (c =? 34).
  { rewrite (parse_string_app (List.length r)) by lia.
    destruct (parse_string r) as [[k r']|]; reflexivity. }
  change (c :: (r ++ [w])) with ((c :: r) ++ [w]).
  destruct ((c =? 45) || is_digit c).
  { rewrite parse_number_app.
    destruct (parse_number (c :: r)) as [[n r']|]; reflexivity. }
  destruct (c =? 116).
  { apply literal_app; [|reflexivity].
    destruct ws_cases as [-> | [-> | [-> | ->]]]; vm_compute; intuition discriminate. }
  destruct (c =? 102).
  { apply literal_app; [|reflexivity].
    destruct ws_cases as [-> | [-> | [-> | ->]]]; vm_compute; intuition discriminate. }
  destruct (c =? 110); [|reflexivity].
  apply literal_app; [|reflexivity].
  destruct ws_cases as [-> | [-> | [-> | ->]]]; vm_compute; intuition discriminate.
Qed.

(** One more white space character at the end of a text is one more
    character left after the value. *)
Lemma parse_app (f : nat) :
  (forall s, parse_value f (s ++ [w]) = app_rest w (parse_value f s)) /\
  (forall s acc,
      parse_elements f (s ++ [w]) acc = app_rest w (parse_elements f s acc)) /\
  (forall s acc,
      parse_members f (s ++ [w]) acc = app_rest w (parse_members f s acc)).
Proof.
  induction f as [|f (IHv & IHe & IHm)]; [repeat split|].
  split; [|split].
  - intros s. rewrite !parse_value_S, !peek_skip_ws_app.
    destruct (peek 123 (skip_ws s)) as [r|]; simpl.
    { rewrite peek_skip_ws_app.
      destruct (peek 125 (skip_ws r)); simpl; [reflexivity|apply IHm]. }
    destruct (peek 91 (skip_ws s)) as [r|]; simpl.
    { rewrite peek_skip_ws_app.
      destruct (peek 93 (skip_ws r)); simpl; [reflexivity|apply IHe]. }
    apply parse_scalar_app.
  - intros s acc. rewrite !parse_elements_S, IHv.
    destruct (parse_value f s) as [v r| |]; simpl; try reflexivity.
    rewrite !peek_skip_ws_app.
    destruct (peek 44 (skip_ws r)); simpl; [apply IHe|].
    destruct (peek 93 (skip_ws r)); reflexivity.
  - intros s acc. rewrite !parse_members_S, peek_skip_ws_app.
    destruct (peek 34 (skip_ws s)) as [r|]; simpl; [|reflexivity].
    rewrite (parse_string_app (List.length r)) by lia.
    destruct (parse_string r) as [[k r1]|]; simpl; [|reflexivity].
    rewrite peek_skip_ws_app.
    destruct (peek 58 (skip_ws r1)) as [r2|]; simpl; [|reflexivity].
    rewrite IHv.
    destruct (parse_value f r2) as [v r3| |]; simpl; try reflexivity.
    rewrite !peek_skip_ws_app.
    destruct (peek 44 (skip_ws r3)); simpl; [apply IHm|].
    destruct (peek 125 (skip_ws r3)); reflexivity.
Qed.

(** [JSON.parse] does not see white space at the end of the text. *)
Lemma JSON_parse_app (s : jsstring) : JSON_parse (s ++ [w]) = JSON_parse s.
Proof.
  unfold JSON_parse.
  replace (JSON_fuel (s ++ [w])) with (S (S (JSON_fuel s)))
    by (unfold JSON_fuel; rewrite length_app; simpl; lia).
  rewrite (proj1 (parse_app _)).
  pose proof (JSON_parse_fuel s) as Hf.
  assert (H1 : parse_value (S (JSON_fuel s)) s = parse_value (JSON_fuel s) s).
  { apply (proj1 (parse_fuel_S _)). exact Hf. }
  assert (H2 : parse_value (S (S (JSON_fuel s))) s =
               parse_value (JSON_fuel s) s).
  { rewrite <- H1. apply (proj1 (parse_fuel_S _)). rewrite H1. exact Hf. }
  rewrite H2.
  destruct (parse_value (JSON_fuel s) s) as [v r| |]; simpl; try reflexivity.
  rewrite skip_ws_app. destruct (skip_ws r); reflexivity.
Qed.

End TrailingWhiteSpace.

Lemma handle_line_CR (line : jsstring) (st : State) :
  handle_line st (line ++ [CR]) = handle_line st line.
Proof.
  unfold handle_line.
  rewrite (startsWith_app CR) by (vm_compute; intuition discriminate).
  destruct (startsWith line (js "data: ")) eqn:E; [|reflexivity].
  apply startsWith_prefix in E. apply prefix_split in E.
  rewrite E. rewrite <- app_assoc.
  change (substring 6 (js "data: " ++ skipn 6 line ++ [CR]))
    with (skipn 6 line ++ [CR]).
  change (substring 6 (js "data: " ++ skipn 6 line)) with (skipn 6 line).
  rewrite !dispatch_effects. unfold payload_effects.
  rewrite (JSON_parse_app CR) by reflexivity. reflexivity.
Qed.

(** X17.  Lines that end with a carriage return (a stream framed with
    CR LF) are handled exactly as the same lines without it: the prefix
    test does not see it, [JSON.parse] takes it for trailing white space,
    and a line of a lone carriage return is passed over like a blank
    line. *)
Theorem carriage_returns_change_nothing (lines : list jsstring) (st : State) :
  fold_left handle_line (List.map (fun l => l ++ [CR]) lines) st =
  fold_left handle_line lines st.
Proof.
  revert st. induction lines as [|l ls IH]; intros st; [reflexivity|].
  simpl. rewrite handle_line_CR. apply IH.
Qed.
